(** * UniDOS: the loader, the PSP builder and the interrupt dispatcher

    A shallow embedding of [main.c] of the UniDOS emulator: the packed
    [struct PSP], [setup_psp], [load_com], [hook_intr] and [main], with the
    properties the specification states about them.

    Conventions.
    - C integers are [Z]; a [uint8_t] or [uint32_t] variable wraps with
      [uint8] or [uint32] where the source increments or converts.
    - The host buffer [uint8_t memory[MEM_SIZE]] is a [list Z] of bytes,
      read with stdpp's [!!] and written with [<[ _ := _ ]>].  A C store
      outside the array (or outside the member of the struct it names) is
      undefined behaviour: [store] and [store_member] return [None] there.
    - [argv] is a [list string]; [argc] is its length.  A C string ends at
      its first NUL, so a [string] is read up to its first zero character. *)

From Stdlib Require Import ZArith Lia Ascii String HexString.
From stdpp Require Import base option list strings pretty.

Local Open Scope Z_scope.

(** ** Machine integers *)

Definition uint8 (z : Z) : Z := z mod 2 ^ 8.
Definition uint32 (z : Z) : Z := z mod 2 ^ 32.

(** The byte a [char] holds. *)
Definition byte_of (ch : ascii) : Z := Z.of_N (Ascii.N_of_ascii ch).

(** ** Constants of [main.c] *)

Definition DOS_ADDR : Z := 0x100.
Definition MEM_SIZE : Z := Z.shiftl 1 20.

(** Modelled from the spec: the macro [MK_FP] comes from a header that is
    not part of the sources at hand; a (segment, offset) pair "resolves to
    an absolute byte offset as segment * 16 + offset". *)
Definition MK_FP (seg off : Z) : Z := seg * 16 + off.

(** ** The packed record [struct PSP] *)

Inductive ctype := uint8_t | uint16_t | uint32_t | char.

Definition sizeof (t : ctype) : Z :=
  match t with
  | uint8_t | char => 1
  | uint16_t => 2
  | uint32_t => 4
  end.

Inductive PSP_field :=
  | CPMExit | FirstFreeSegment | Reserved1 | CPMCall5Compat
  | OldTSRAddress | OldBreakAddress | CriticalErrorHandlerAddress
  | CallerPSPSegment | JobFileTable | EnvironmentSegment | INT21SSSP
  | JobFileTableSize | JobFileTablePointer | PreviousPSP | Reserved2
  | DOSVersion | Reserved3 | DOSFarCall | Reserved4 | ExtendedFCB1
  | FCB1 | FCB2 | CommandLineLength | CommandLine.

#[global] Instance PSP_field_eq_dec : EqDecision PSP_field.
Proof. solve_decision. Defined.

(** One member of the struct: its name, element type and element count
    (1 for a scalar). *)
Record member := Member {
  m_name : PSP_field;
  m_type : ctype;
  m_count : Z
}.

Definition member_size (d : member) : Z := sizeof (m_type d) * m_count d.

(** The members in declaration order. *)
Definition struct_PSP : list member :=
  [ Member CPMExit uint8_t 2;
    Member FirstFreeSegment uint16_t 1;
    Member Reserved1 uint8_t 1;
    Member CPMCall5Compat uint8_t 5;
    Member OldTSRAddress uint32_t 1;
    Member OldBreakAddress uint32_t 1;
    Member CriticalErrorHandlerAddress uint32_t 1;
    Member CallerPSPSegment uint16_t 1;
    Member JobFileTable uint8_t 20;
    Member EnvironmentSegment uint16_t 1;
    Member INT21SSSP uint32_t 1;
    Member JobFileTableSize uint16_t 1;
    Member JobFileTablePointer uint32_t 1;
    Member PreviousPSP uint32_t 1;
    Member Reserved2 uint32_t 1;
    Member DOSVersion uint16_t 1;
    Member Reserved3 uint8_t 14;
    Member DOSFarCall uint8_t 3;
    Member Reserved4 uint16_t 1;
    Member ExtendedFCB1 uint8_t 7;
    Member FCB1 uint8_t 16;
    Member FCB2 uint8_t 20;
    Member CommandLineLength uint8_t 1;
    Member CommandLine char 127 ].

(** [#pragma pack(push, 1)]: no padding, so a member starts where the one
    before it ends. *)
Fixpoint find_member (ms : list member) (f : PSP_field) (off : Z)
  : option (Z * member) :=
  match ms with
  | [] => None
  | d :: ms' =>
      if decide (m_name d = f) then Some (off, d)
      else find_member ms' f (off + member_size d)
  end.

Definition offsetof (f : PSP_field) : Z :=
  from_option fst 0 (find_member struct_PSP f 0).

Definition count_of (f : PSP_field) : Z :=
  from_option (m_count ∘ snd) 0 (find_member struct_PSP f 0).

Definition elem_size (f : PSP_field) : Z :=
  from_option (sizeof ∘ m_type ∘ snd) 0 (find_member struct_PSP f 0).

Definition field_size (f : PSP_field) : Z := elem_size f * count_of f.

Definition sizeof_PSP : Z := foldr (fun d acc => member_size d + acc) 0 struct_PSP.

(** ** Guest memory: the host buffer *)

(** [p[a] = v] on a buffer of [length m] bytes. *)
Definition store (m : list Z) (a v : Z) : option (list Z) :=
  if decide (0 <= a < Z.of_nat (length m)) then Some (<[Z.to_nat a := v]> m)
  else None.

(** [PSP->f[i] = v], the struct overlaid on the buffer at offset [psp]. *)
Definition store_member (m : list Z) (psp : Z) (f : PSP_field) (i v : Z)
  : option (list Z) :=
  if decide (0 <= i < count_of f)
  then store m (psp + offsetof f + i * elem_size f) v
  else None.

(** ** [setup_psp] *)

(** The inner loop [while (argv[i][j] && c < 0x7E) CommandLine[c++] = argv[i][j++]]. *)
Fixpoint copy_arg (psp : Z) (s : string) (c : Z) (m : list Z)
  : option (Z * list Z) :=
  match s with
  | EmptyString => Some (c, m)
  | String ch s' =>
      if decide (byte_of ch <> 0 /\ c < 0x7E) then
        m' ← store_member m psp CommandLine c (byte_of ch);
        copy_arg psp s' (uint8 (c + 1)) m'
      else Some (c, m)
  end.

(** The loop [for (i = 2; i < argc && c < 0x7E; i++)] over [argv[2..]]. *)
Fixpoint copy_args (psp : Z) (args : list string) (c : Z) (m : list Z)
  : option (Z * list Z) :=
  match args with
  | [] => Some (c, m)
  | a :: rest =>
      if decide (c < 0x7E) then
        m1 ← store_member m psp CommandLine c 0x20;
        '(c2, m2) ← copy_arg psp a (uint8 (c + 1)) m1;
        copy_args psp rest c2 m2
      else Some (c, m)
  end.

Definition setup_psp (seg : Z) (memory : list Z) (argv : list string)
  : option (list Z) :=
  let abs := uint32 (MK_FP seg 0) in
  let c := 0 in
  (* CPMExit: INT 20h *)
  m ← store_member memory abs CPMExit 0 0xcd;
  m ← store_member m abs CPMExit 1 0x20;
  (* DOS Far Call: INT 21h + RETF *)
  m ← store_member m abs DOSFarCall 0 0xcd;
  m ← store_member m abs DOSFarCall 1 0x21;
  m ← store_member m abs DOSFarCall 2 0xcb;
  (* first FCB = empty file name *)
  m ← store_member m abs FCB1 0 0x01;
  m ← store_member m abs FCB1 1 0x20;
  '(c, m) ← copy_args abs (drop 2 argv) c m;
  m ← store_member m abs CommandLine c 0x0D;
  store_member m abs CommandLineLength 0 c.

(** ** The process: state, exit and undefined behaviour *)

(** The registers of the engine that [main.c] reads or writes. *)
Inductive uc_reg :=
  | UC_X86_REG_SP | UC_X86_REG_CS | UC_X86_REG_DS | UC_X86_REG_ES
  | UC_X86_REG_SS | UC_X86_REG_IP | UC_X86_REG_AH.

#[global] Instance uc_reg_eq_dec : EqDecision uc_reg.
Proof. solve_decision. Defined.

(** The engine behind a [uc_engine *]: its register file, the region
    mapped at address 0, whether an interrupt hook is installed and
    whether the run loop has been asked to stop. *)
Record uc_engine := UcEngine {
  uc_regs : uc_reg -> Z;
  uc_mem : list Z;
  uc_hooked : bool;
  uc_stopped : bool
}.

(** What the process does to the outside, in order. *)
Inductive event :=
  | Stdout (s : string)
  | Stderr (s : string)
  | Perror (s : string)
  | UcClose
  | UcEmuStart (uc : uc_engine) (begin until : Z).

Record host := Host {
  h_uc : uc_engine;
  h_out : list event
}.

(** A call returns a value, ends the process with [exit (status)], or is
    undefined. *)
Inductive result (A : Type) :=
  | Ret (a : A)
  | Exit (status : Z)
  | Undefined.
Arguments Ret {A} a.
Arguments Exit {A} status.
Arguments Undefined {A}.

Definition M (A : Type) : Type := host -> result A * host.

#[global] Instance M_ret : MRet M := fun A a h => (Ret a, h).
#[global] Instance M_bind : MBind M := fun A B f c h =>
  match c h with
  | (Ret a, h') => f a h'
  | (Exit s, h') => (Exit s, h')
  | (Undefined, h') => (Undefined, h')
  end.

Definition exit {A} (status : Z) : M A := fun h => (Exit status, h).
Definition undefined {A} : M A := fun h => (Undefined, h).
Definition emit (e : event) : M unit :=
  fun h => (Ret tt, Host (h_uc h) (h_out h ++ [e])).
Definition get_uc : M uc_engine := fun h => (Ret (h_uc h), h).
Definition put_uc (uc : uc_engine) : M unit :=
  fun h => (Ret tt, Host uc (h_out h)).
(** A pure computation on the buffer; [None] is undefined behaviour. *)
Definition defined {A} (o : option A) : M A :=
  match o with Some a => mret a | None => undefined end.

(** <stdlib.h> *)
Definition EXIT_FAILURE : Z := 1.

Definition nl : string := String (ascii_of_nat 10) EmptyString.

(** [printf ("%x", z)] and [printf ("%u", z)] on an unsigned value. *)
Definition fmt_x (z : Z) : string :=
  match z with
  | Zpos p => HexString.Raw.of_pos p EmptyString
  | _ => "0"
  end.
Definition fmt_u (z : Z) : string := pretty (Z.to_N z).

(** ** What the environment decides *)

Record world := World {
  (** the [uc_err] of [uc_open], [uc_mem_map] and [uc_emu_start] *)
  w_uc_open : Z;
  w_uc_mem_map : Z;
  w_uc_emu_start : Z;
  w_uc_strerror : Z -> string;
  (** [fopen (fname, "rb")]: the bytes of the file, if it can be opened *)
  w_fopen : string -> option (list Z);
  (** the indeterminate contents of the automatic array [memory], of a
      fresh mapping and of the register file after [uc_open] *)
  w_auto : nat -> Z;
  w_fresh : nat -> Z;
  w_regs : uc_reg -> Z
}.

(** ** The engine's interface, as [main.c] consumes it *)

Definition set_reg (r : uc_reg) (v : Z) (regs : uc_reg -> Z) : uc_reg -> Z :=
  fun r' => if decide (r' = r) then v else regs r'.

Definition uc_reg_write (r : uc_reg) (v : Z) : M unit :=
  uc ← get_uc;
  put_uc (UcEngine (set_reg r v (uc_regs uc))
                   (uc_mem uc) (uc_hooked uc) (uc_stopped uc)).

(** The width, in bits, of what [uc_reg_read] stores for a register in
    [UC_MODE_16]: AH is a byte, the others are words. *)
Definition reg_bits (r : uc_reg) : Z :=
  match r with
  | UC_X86_REG_AH => 8
  | _ => 16
  end.

(** A store of [bits] bits at the address of a wider variable that held
    [old] (little-endian host): the low [bits] bits are those of [v], the
    others stay those of [old]. *)
Definition store_low (bits old v : Z) : Z :=
  2 ^ bits * (old / 2 ^ bits) + v mod 2 ^ bits.

(** [uc_reg_read (uc, r, &var)], where [var] held [old]: the engine stores
    the register in its own width; what is left of [var] is not written. *)
Definition uc_reg_read (r : uc_reg) (old : Z) : M Z :=
  uc ← get_uc; mret (store_low (reg_bits r) old (uc_regs uc r)).

(** [uc_mem_write (uc, address, bytes, size)]: all of the range or, when it
    does not lie in the mapped region, none of it. *)
Definition uc_mem_write (address : Z) (bytes : list Z) (size : Z) : M unit :=
  uc ← get_uc;
  if decide (0 <= address /\ 0 <= size /\
             address + size <= Z.of_nat (length (uc_mem uc)))
  then put_uc (UcEngine (uc_regs uc)
                 (list_inserts (Z.to_nat address) (take (Z.to_nat size) bytes) (uc_mem uc))
                 (uc_hooked uc) (uc_stopped uc))
  else mret tt.

Definition uc_hook_add : M unit :=
  uc ← get_uc;
  put_uc (UcEngine (uc_regs uc) (uc_mem uc) true (uc_stopped uc)).

Definition uc_close : M unit := emit UcClose.

(** [uc_open (UC_ARCH_X86, UC_MODE_16, &uc)]: on success there is an engine
    with nothing mapped. *)
Definition uc_open (w : world) : M Z :=
  if decide (w_uc_open w = 0) then
    put_uc (UcEngine (w_regs w) [] false false);;
    mret 0
  else mret (w_uc_open w).

(** The bytes of a region of [size] bytes that has just been mapped. *)
Definition fresh_mapping (w : world) (size : Z) : list Z :=
  w_fresh w <$> seq 0 (Z.to_nat size).

(** [uc_mem_map (uc, 0, size, UC_PROT_ALL)] *)
Definition uc_mem_map (w : world) (size : Z) : M Z :=
  if decide (w_uc_mem_map w = 0) then
    uc ← get_uc;
    put_uc (UcEngine (uc_regs uc) (fresh_mapping w size) (uc_hooked uc) (uc_stopped uc));;
    mret 0
  else mret (w_uc_mem_map w).

(** [uc_emu_start (uc, begin, until, 0, 0)]: the run loop, entered on the
    engine as it is at the call; what the guest does is not modelled. *)
Definition uc_emu_start (w : world) (begin until : Z) : M Z :=
  uc ← get_uc;
  emit (UcEmuStart uc begin until);;
  mret (w_uc_emu_start w).

(** Modelled from the spec: [int21_init] is declared in [int21.h], which is
    not among the sources at hand; it is the "one-time syscall-handler
    setup invoked before emulation starts", on tables of the handler that
    are no part of [host]. *)
Definition int21_init : M unit := mret tt.

(** ** The C library calls on the buffer *)

(** [memset (p, v, n)] *)
Definition memset (m : list Z) (v n : Z) : option (list Z) :=
  if decide (0 <= n <= Z.of_nat (length m))
  then Some (replicate (Z.to_nat n) v ++ drop (Z.to_nat n) m)
  else None.

(** [fread (p + a, size, 1, f)] with the file position at 0. *)
Definition fread (m : list Z) (a size : Z) (f : list Z) : option (list Z) :=
  let got := take (Z.to_nat size) f in
  if decide (0 <= a /\ a + Z.of_nat (length got) <= Z.of_nat (length m))
  then Some (list_inserts (Z.to_nat a) got m)
  else None.

(** [uint8_t memory[MEM_SIZE]], an automatic array that is not
    initialised. *)
Definition auto_memory (w : world) : list Z :=
  w_auto w <$> seq 0 (Z.to_nat MEM_SIZE).

(** ** [usage] *)

Definition usage (prog : string) : M unit :=
  emit (Stdout ("UniDOS for DOS emulation. Based on Unicorn engine (www.unicorn-engine.org)" +:+ nl));;
  emit (Stdout ("Syntax: " +:+ prog +:+ " <COM>" +:+ nl)).

(** ** [load_com] *)

(** The buffer is changed in place in C; here the new buffer is returned
    next to the size.  The size is the length of the file ([fseek] to the
    end, [ftell]); [fclose] changes nothing that is modelled. *)
Definition load_com (w : world) (memory : list Z) (fname : string)
  : M (Z * list Z) :=
  match w_fopen w fname with
  | None =>
      emit (Perror "Error");;
      uc_close;;
      exit EXIT_FAILURE
  | Some f =>
      (* find the file size *)
      let fsize := Z.of_nat (length f) in
      (* check .com size *)
      if decide (fsize = 0 \/ fsize > 0xff00) then
        emit (Stderr ("Invalid file size" +:+ nl));;
        uc_close;;
        exit EXIT_FAILURE
      else
        (* copy data in from 0x100 *)
        memory ← defined (memset memory 0 MEM_SIZE);
        memory ← defined (fread memory DOS_ADDR fsize f);
        (* initialize stack pointer *)
        let r_sp := 0xfffe in
        uc_reg_write UC_X86_REG_SP r_sp;;
        (* initialize segment registers *)
        let r_cs := 0 in
        let r_ds := 0 in
        let r_es := 0 in
        let r_ss := 0 in
        uc_reg_write UC_X86_REG_CS r_cs;;
        uc_reg_write UC_X86_REG_DS r_ds;;
        uc_reg_write UC_X86_REG_ES r_es;;
        uc_reg_write UC_X86_REG_SS r_ss;;
        mret (fsize, memory)
  end.

(** ** [hook_intr] *)

Section Dispatch.
(** The two handlers, declared in [int20.h] and [int21.h]. *)
Variables int20 int21 : M unit.
(** What the automatic variables [uint32_t r_ip] and [uint8_t r_ah] hold
    when [hook_intr] is entered: they are not initialised. *)
Variables r_ip_0 r_ah_0 : Z.

Definition hook_intr (intno : Z) : M unit :=
  let r_ip := uint32 r_ip_0 in
  let r_ah := uint8 r_ah_0 in
  r_ip ← uc_reg_read UC_X86_REG_IP r_ip;
  r_ah ← uc_reg_read UC_X86_REG_AH r_ah;
  (* only handle DOS interrupt *)
  if decide (intno = 0x21) then int21
  else if decide (intno = 0x20) then int20
  else emit (Stdout (">>> 0x" +:+ fmt_x r_ip +:+ ": interrupt: " +:+ fmt_x intno
                     +:+ ", function " +:+ fmt_x r_ah +:+ nl)).
End Dispatch.

(** ** [main] *)

Definition main (w : world) (argv : list string) : M Z :=
  let argc := Z.of_nat (length argv) in
  let memory := auto_memory w in
  if decide (argc = 1) then
    usage (default EmptyString (argv !! 0%nat));;
    mret (-1)
  else
    fname ← defined (argv !! 1%nat);
    err ← uc_open w;
    if decide (err <> 0) then
      emit (Stderr ("Cannot initialize unicorn" +:+ nl));;
      mret 1
    else
      (* map 64KB in *)
      err ← uc_mem_map w MEM_SIZE;
      if decide (err <> 0) then
        emit (Stderr ("Failed to write emulation code to memory, quit!" +:+ nl));;
        uc_close;;
        mret 0
      else
        (* initialize internal settings *)
        int21_init;;
        (* load executable *)
        '(fsize, memory) ← load_com w memory fname;
        (* setup PSP *)
        memory ← defined (setup_psp 0 memory argv);
        (* write machine code to be emulated in, including the prefix PSP *)
        uc_mem_write 0 memory (DOS_ADDR + fsize);;
        (* handle interrupt ourself *)
        uc_hook_add;;
        err ← uc_emu_start w DOS_ADDR (DOS_ADDR + 0x10000);
        (if decide (err <> 0) then
           emit (Stderr ("Failed on uc_emu_start() with error returned " +:+ fmt_u err
                         +:+ ": " +:+ w_uc_strerror w err +:+ nl))
         else mret tt);;
        uc_close;;
        mret 0.

(** The process as seen from outside: its exit status (if defined) and
    what it did, from a host that has done nothing yet. *)
Definition host0 : host := Host (UcEngine (fun _ => 0) [] false false) [].

Definition exit_status (w : world) (argv : list string) : option Z :=
  match fst (main w argv host0) with
  | Ret v => Some v
  | Exit s => Some s
  | Undefined => None
  end.

Definition trace (w : world) (argv : list string) : list event :=
  h_out (snd (main w argv host0)).

(** ** The command-line tail, as the specification words it *)

(** The bytes of a C string: up to, and without, its first NUL. *)
Fixpoint cstring (s : string) : list Z :=
  match s with
  | EmptyString => []
  | String ch s' => if decide (byte_of ch = 0) then [] else byte_of ch :: cstring s'
  end.

(** Each argument preceded by one space, one after the other. *)
Definition spaced (args : list string) : list Z :=
  args ≫= (fun a => 0x20 :: cstring a).

(** The arguments after the image path, cut at 126 bytes. *)
Definition tail_text (argv : list string) : list Z := spaced (drop 2 argv).
Definition command_tail (argv : list string) : list Z := take 126 (tail_text argv).

(** The buffer [m] with a PSP at byte [a] whose command-line tail is [t]:
    the stores of [setup_psp], one after the other. *)
Definition psp_image (a : nat) (t : list Z) (m : list Z) : list Z :=
  let m := <[(a + 0)%nat := 0xcd]> m in
  let m := <[(a + 1)%nat := 0x20]> m in
  let m := <[(a + 80)%nat := 0xcd]> m in
  let m := <[(a + 81)%nat := 0x21]> m in
  let m := <[(a + 82)%nat := 0xcb]> m in
  let m := <[(a + 92)%nat := 0x01]> m in
  let m := <[(a + 93)%nat := 0x20]> m in
  let m := list_inserts (a + 129) t m in
  let m := <[(a + 129 + length t)%nat := 0x0D]> m in
  <[(a + 128)%nat := Z.of_nat (length t)]> m.

(** The buffer after [load_com] has read the image [f]. *)
Definition loaded (f : list Z) : list Z :=
  replicate (Z.to_nat DOS_ADDR) 0 ++ f
    ++ replicate (Z.to_nat (MEM_SIZE - DOS_ADDR - Z.of_nat (length f))) 0.

(** The register file after the five [uc_reg_write] of [load_com]. *)
Definition loaded_regs (regs : uc_reg -> Z) : uc_reg -> Z :=
  set_reg UC_X86_REG_SS 0 (set_reg UC_X86_REG_ES 0 (set_reg UC_X86_REG_DS 0
    (set_reg UC_X86_REG_CS 0 (set_reg UC_X86_REG_SP 0xfffe regs)))).

(** The diagnostic of a failed run, if any. *)
Definition emu_diagnostic (w : world) : list event :=
  if decide (w_uc_emu_start w <> 0) then
    [Stderr ("Failed on uc_emu_start() with error returned "
             +:+ fmt_u (w_uc_emu_start w) +:+ ": "
             +:+ w_uc_strerror w (w_uc_emu_start w) +:+ nl)]
  else [].

(** The engine at the call of [uc_emu_start] when the image [f] was loaded. *)
Definition started_engine (w : world) (argv : list string) (f : list Z) : uc_engine :=
  UcEngine (loaded_regs (w_regs w))
    (list_inserts 0
       (take (Z.to_nat (DOS_ADDR + Z.of_nat (length f)))
             (psp_image 0 (command_tail argv) (loaded f)))
       (fresh_mapping w MEM_SIZE))
    true false.

(** A call ends the emulation when the process does not return from it or
    the engine has been asked to stop. *)
Definition halts {A} (r : result A * host) : Prop :=
  (forall a, fst r <> Ret a) \/ uc_stopped (h_uc (snd r)) = true.

(** The line [hook_intr] prints for a vector it does not handle, from the
    values of [r_ip], [intno] and [r_ah]. *)
Definition intr_log (r_ip intno r_ah : Z) : string :=
  ">>> 0x" +:+ fmt_x r_ip +:+ ": interrupt: "
  +:+ fmt_x intno +:+ ", function " +:+ fmt_x r_ah +:+ nl.

(** The fields of the record that [setup_psp] assigns to. *)
Definition assigned_fields : list PSP_field :=
  [CPMExit; DOSFarCall; FCB1; CommandLineLength; CommandLine].

(** ** Sample runs *)

(** A world where everything succeeds and every file is the two bytes
    CD 20 (INT 20h); one where the mapping fails. *)
Definition int20_com : list Z := [0xcd; 0x20].
Definition fine_world : world :=
  World 0 0 0 (fun _ => EmptyString) (fun _ => Some int20_com)
        (fun _ => 0xAA) (fun _ => 0x55) (fun _ => 0).
Definition unmapped_world : world :=
  World 0 1 0 (fun _ => EmptyString) (fun _ => Some int20_com)
        (fun _ => 0xAA) (fun _ => 0x55) (fun _ => 0).
Definition empty_file_world : world :=
  World 0 0 0 (fun _ => EmptyString) (fun _ => Some [])
        (fun _ => 0xAA) (fun _ => 0x55) (fun _ => 0).

(** Two handlers to run [hook_intr] with: one that asks the engine to stop,
    one that does nothing. *)
Definition stopping_handler : M unit :=
  uc ← get_uc;
  put_uc (UcEngine (uc_regs uc) (uc_mem uc) (uc_hooked uc) true).
Definition idle_handler : M unit := mret tt.

(** ** Every way through [main], in closed form *)

(** What [main] comes to from [host0], by the argument vector and by what
    the environment decides. *)
Definition main_outcome (w : world) (argv : list string) : result Z * host :=
  match argv with
  | [] => (Undefined, host0)
  | [prog] =>
      (Ret (-1),
       Host (h_uc host0)
         [Stdout ("UniDOS for DOS emulation. Based on Unicorn engine (www.unicorn-engine.org)" +:+ nl);
          Stdout ("Syntax: " +:+ prog +:+ " <COM>" +:+ nl)])
  | _ :: fname :: _ =>
      if decide (w_uc_open w <> 0) then
        (Ret 1, Host (h_uc host0) [Stderr ("Cannot initialize unicorn" +:+ nl)])
      else if decide (w_uc_mem_map w <> 0) then
        (Ret 0,
         Host (UcEngine (w_regs w) [] false false)
           [Stderr ("Failed to write emulation code to memory, quit!" +:+ nl); UcClose])
      else
        match w_fopen w fname with
        | None =>
            (Exit EXIT_FAILURE,
             Host (UcEngine (w_regs w) (fresh_mapping w MEM_SIZE) false false)
               [Perror "Error"; UcClose])
        | Some f =>
            if decide (0 < Z.of_nat (length f) <= 0xff00) then
              (Ret 0,
               Host (started_engine w argv f)
                 (UcEmuStart (started_engine w argv f) DOS_ADDR (DOS_ADDR + 0x10000)
                    :: emu_diagnostic w ++ [UcClose]))
            else
              (Exit EXIT_FAILURE,
               Host (UcEngine (w_regs w) (fresh_mapping w MEM_SIZE) false false)
                 [Stderr ("Invalid file size" +:+ nl); UcClose])
        end
  end.

(** Whether an event is the entry into the run loop. *)
Definition is_start (e : event) : bool :=
  match e with UcEmuStart _ _ _ => true | _ => false end.

(** How often a trace closes the engine. *)
Definition is_close (e : event) : bool :=
  match e with UcClose => true | _ => false end.
Definition closes (tr : list event) : nat := length (List.filter is_close tr).

(** The bytes the arguments after the image path take in the tail when
    nothing is cut: one space and the characters, for each. *)
Definition tail_demand (argv : list string) : nat :=
  sum_list_with (fun a => S (length (cstring a))) (drop 2 argv).

(** An argument of 200 characters. *)
Definition long_argument : string :=
  string_of_list_ascii (repeat "a"%char 200).

(** A world whose run loop reports the error 10. *)
Definition faulting_world : world :=
  World 0 0 10 (fun _ => "Invalid instruction (UC_ERR_INSN_INVALID)")
        (fun _ => Some int20_com) (fun _ => 0xAA) (fun _ => 0x55) (fun _ => 0).

(** * Properties *)

(** ** The layout of [struct PSP] *)

Lemma count_of_CPMExit : count_of CPMExit = 2. Proof. reflexivity. Qed.
Lemma count_of_DOSFarCall : count_of DOSFarCall = 3. Proof. reflexivity. Qed.
Lemma count_of_FCB1 : count_of FCB1 = 16. Proof. reflexivity. Qed.
Lemma count_of_CommandLineLength : count_of CommandLineLength = 1. Proof. reflexivity. Qed.
Lemma count_of_CommandLine : count_of CommandLine = 127. Proof. reflexivity. Qed.
Lemma offsetof_CPMExit : offsetof CPMExit = 0. Proof. reflexivity. Qed.
Lemma offsetof_DOSFarCall : offsetof DOSFarCall = 80. Proof. reflexivity. Qed.
Lemma offsetof_FCB1 : offsetof FCB1 = 92. Proof. reflexivity. Qed.
Lemma offsetof_CommandLineLength : offsetof CommandLineLength = 128. Proof. reflexivity. Qed.
Lemma offsetof_CommandLine : offsetof CommandLine = 129. Proof. reflexivity. Qed.
Lemma elem_size_CPMExit : elem_size CPMExit = 1. Proof. reflexivity. Qed.
Lemma elem_size_DOSFarCall : elem_size DOSFarCall = 1. Proof. reflexivity. Qed.
Lemma elem_size_FCB1 : elem_size FCB1 = 1. Proof. reflexivity. Qed.
Lemma elem_size_CommandLineLength : elem_size CommandLineLength = 1. Proof. reflexivity. Qed.
Lemma elem_size_CommandLine : elem_size CommandLine = 1. Proof. reflexivity. Qed.

Create Rewrite HintDb psp_layout.
#[local] Hint Rewrite count_of_CPMExit count_of_DOSFarCall count_of_FCB1
  count_of_CommandLineLength count_of_CommandLine
  offsetof_CPMExit offsetof_DOSFarCall offsetof_FCB1
  offsetof_CommandLineLength offsetof_CommandLine
  elem_size_CPMExit elem_size_DOSFarCall elem_size_FCB1
  elem_size_CommandLineLength elem_size_CommandLine : psp_layout.

(** C6: [struct PSP] is 256 bytes, with the termination trampoline at 0,
    the free-segment pointer at 2, the API-call trampoline (3 bytes) at
    0x50, the two file-control-block slots at 0x5C and 0x6C, the length
    prefix at 0x80 and the 127 bytes of command-line text from 0x81 to the
    end of the record. *)
Theorem PSP_layout :
  sizeof_PSP = 256 /\
  (offsetof CPMExit = 0 /\ field_size CPMExit = 2) /\
  (offsetof FirstFreeSegment = 2 /\ field_size FirstFreeSegment = 2) /\
  (offsetof DOSFarCall = 0x50 /\ field_size DOSFarCall = 3) /\
  (offsetof FCB1 = 0x5C /\ field_size FCB1 = 16) /\
  (offsetof FCB2 = 0x6C /\ field_size FCB2 = 20) /\
  (offsetof CommandLineLength = 0x80 /\ field_size CommandLineLength = 1) /\
  (offsetof CommandLine = 0x81 /\ field_size CommandLine = 127) /\
  offsetof CommandLine + field_size CommandLine = sizeof_PSP.
Proof. repeat split; reflexivity. Qed.

(** ** [setup_psp] *)

Lemma store_member_Some (m : list Z) psp f i v :
  0 <= i < count_of f ->
  0 <= psp + offsetof f + i * elem_size f < Z.of_nat (length m) ->
  store_member m psp f i v
  = Some (<[Z.to_nat (psp + offsetof f + i * elem_size f) := v]> m).
Proof.
  intros Hi Ha. unfold store_member, store.
  rewrite decide_True by done. by rewrite decide_True.
Qed.

Lemma uint8_small z : 0 <= z < 256 -> uint8 z = z.
Proof. intros. unfold uint8. apply Z.mod_small. lia. Qed.

Lemma cstring_cons_nz ch s :
  byte_of ch <> 0 -> cstring (String ch s) = byte_of ch :: cstring s.
Proof. intros. cbn [cstring]. by rewrite decide_False. Qed.

(** The inner loop appends what fits of the argument. *)
Lemma copy_arg_spec (a : nat) s : forall (n : nat) (m : list Z),
  (n <= 126)%nat ->
  (a + 256 <= length m)%nat ->
  copy_arg (Z.of_nat a) s (Z.of_nat n) m
  = Some (Z.of_nat (n + length (take (126 - n) (cstring s))),
          list_inserts (a + 129 + n) (take (126 - n) (cstring s)) m).
Proof.
  induction s as [|ch s IH]; intros n m Hn Hm.
  - simpl. rewrite take_nil. simpl. by rewrite Nat.add_0_r.
  - cbn [copy_arg]. destruct (decide (byte_of ch <> 0 /\ Z.of_nat n < 126)) as [[Hch Hlt]|Hno].
    + rewrite store_member_Some by (autorewrite with psp_layout; lia).
      autorewrite with psp_layout. cbn [mbind option_bind].
      rewrite uint8_small by lia.
      replace (Z.of_nat n + 1) with (Z.of_nat (S n)) by lia.
      rewrite IH by (rewrite ?length_insert; lia).
      rewrite cstring_cons_nz by done.
      replace (126 - n)%nat with (S (126 - S n)) by lia.
      cbn [take length list_inserts].
      rewrite list_insert_inserts_lt by lia.
      do 3 f_equal; try lia.
      f_equal. lia.
    + assert (take (126 - n) (cstring (String ch s)) = []) as ->.
      { destruct (decide (byte_of ch = 0)) as [E|E].
        - cbn [cstring]. rewrite decide_True by done. apply take_nil.
        - replace (126 - n)%nat with 0%nat by lia. done. }
      simpl. by rewrite Nat.add_0_r.
Qed.

Lemma spaced_cons a0 rest :
  spaced (a0 :: rest) = 0x20 :: cstring a0 ++ spaced rest.
Proof. reflexivity. Qed.

(** The outer loop appends what fits of the spaced arguments. *)
Lemma copy_args_spec (a : nat) args : forall (n : nat) (m : list Z),
  (n <= 126)%nat ->
  (a + 256 <= length m)%nat ->
  copy_args (Z.of_nat a) args (Z.of_nat n) m
  = Some (Z.of_nat (n + length (take (126 - n) (spaced args))),
          list_inserts (a + 129 + n) (take (126 - n) (spaced args)) m).
Proof.
  induction args as [|a0 rest IH]; intros n m Hn Hm.
  - cbn [copy_args]. change (spaced []) with (@nil Z). rewrite take_nil.
    cbn [length list_inserts]. by rewrite Nat.add_0_r.
  - cbn [copy_args]. destruct (decide (Z.of_nat n < 126)) as [Hlt|Hge].
    + rewrite store_member_Some by (autorewrite with psp_layout; lia).
      autorewrite with psp_layout. cbn [mbind option_bind].
      rewrite uint8_small by lia.
      replace (Z.of_nat n + 1) with (Z.of_nat (S n)) by lia.
      rewrite copy_arg_spec by (rewrite ?length_insert; lia).
      cbn [mbind option_bind].
      set (t1 := take (126 - S n) (cstring a0)).
      assert (length t1 <= 126 - S n)%nat as Ht1
        by (subst t1; rewrite length_take; lia).
      rewrite IH by (rewrite ?length_inserts, ?length_insert; lia).
      rewrite spaced_cons.
      replace (126 - n)%nat with (S (126 - S n)) by lia.
      cbn [take]. rewrite take_app. fold t1.
      replace (126 - S n - length (cstring a0))%nat
        with (126 - (S n + length t1))%nat
        by (subst t1; rewrite length_take; lia).
      set (t2 := take (126 - (S n + length t1)) (spaced rest)).
      cbn [length list_inserts]. rewrite list_inserts_app_l, length_app.
      rewrite !list_insert_inserts_lt by lia.
      repeat (f_equal; try lia).
    + replace (126 - n)%nat with 0%nat by lia.
      cbn [take length list_inserts]. by rewrite Nat.add_0_r.
Qed.

Lemma length_command_tail argv : (length (command_tail argv) <= 126)%nat.
Proof. unfold command_tail. rewrite length_take. lia. Qed.

Lemma uint32_small z : 0 <= z < 2 ^ 32 -> uint32 z = z.
Proof. intros. unfold uint32. by apply Z.mod_small. Qed.

(** [setup_psp] is defined whenever the record fits in the buffer, and its
    result is [psp_image]. *)
Lemma setup_psp_spec seg (m : list Z) argv :
  uint32 (MK_FP seg 0) + sizeof_PSP <= Z.of_nat (length m) ->
  setup_psp seg m argv
  = Some (psp_image (Z.to_nat (uint32 (MK_FP seg 0))) (command_tail argv) m).
Proof.
  change sizeof_PSP with 256. intros Hfit. unfold setup_psp.
  assert (0 <= uint32 (MK_FP seg 0)) as Hpos
    by (unfold uint32; apply Z.mod_pos_bound; lia).
  set (abs := uint32 (MK_FP seg 0)) in *.
  assert (abs = Z.of_nat (Z.to_nat abs)) as Habs by lia.
  set (a := Z.to_nat abs) in *. rewrite Habs. clear Habs.
  pose proof (length_command_tail argv) as Hlen.
  repeat (rewrite store_member_Some
            by (autorewrite with psp_layout; rewrite ?length_insert; lia);
          autorewrite with psp_layout; cbn [mbind option_bind]).
  rewrite (copy_args_spec a (drop 2 argv) 0) by (rewrite ?length_insert; lia).
  cbn [mbind option_bind]. rewrite Nat.sub_0_r, Nat.add_0_l, Nat.add_0_r.
  fold (tail_text argv). fold (command_tail argv).
  repeat (rewrite store_member_Some
            by (autorewrite with psp_layout;
                rewrite ?length_insert, ?length_inserts, ?length_insert; lia);
          autorewrite with psp_layout; cbn [mbind option_bind]).
  unfold psp_image. f_equal.
  repeat (f_equal; try lia).
Qed.

(** *** Reading the buffer [psp_image] back *)

Lemma length_psp_image a t (m : list Z) : length (psp_image a t m) = length m.
Proof.
  unfold psp_image.
  by rewrite !length_insert, length_inserts, !length_insert.
Qed.

Ltac psp_lookup :=
  unfold psp_image;
  repeat first
    [ rewrite list_lookup_insert_ne by lia
    | rewrite list_lookup_insert_eq
        by (rewrite ?length_insert, ?length_inserts, ?length_insert; lia)
    | rewrite list_lookup_inserts_lt by lia
    | rewrite list_lookup_inserts_ge by lia
    | rewrite list_lookup_inserts by (rewrite ?length_insert; lia) ].

Section PspImage.
Variables (a : nat) (t m : list Z).
Hypothesis Hfit : (a + 256 <= length m)%nat.
Hypothesis Hlen : (length t <= 126)%nat.

Lemma psp_image_CPMExit :
  psp_image a t m !! (a + 0)%nat = Some 0xcd /\
  psp_image a t m !! (a + 1)%nat = Some 0x20.
Proof using Hfit Hlen. split; by psp_lookup. Qed.

Lemma psp_image_DOSFarCall :
  psp_image a t m !! (a + 80)%nat = Some 0xcd /\
  psp_image a t m !! (a + 81)%nat = Some 0x21 /\
  psp_image a t m !! (a + 82)%nat = Some 0xcb.
Proof using Hfit Hlen. repeat split; by psp_lookup. Qed.

Lemma psp_image_FCB1 :
  psp_image a t m !! (a + 92)%nat = Some 0x01 /\
  psp_image a t m !! (a + 93)%nat = Some 0x20.
Proof using Hfit Hlen. split; by psp_lookup. Qed.

Lemma psp_image_length_prefix :
  psp_image a t m !! (a + 128)%nat = Some (Z.of_nat (length t)).
Proof using Hfit Hlen. by psp_lookup. Qed.

Lemma psp_image_content k :
  (k < length t)%nat -> psp_image a t m !! (a + 129 + k)%nat = t !! k.
Proof using Hfit Hlen.
  intros Hk. psp_lookup. f_equal. lia.
Qed.

Lemma psp_image_terminator :
  psp_image a t m !! (a + 129 + length t)%nat = Some 0x0D.
Proof using Hfit Hlen. by psp_lookup. Qed.

End PspImage.

(** Every other byte is the one that was there. *)
Lemma psp_image_frame a t (m : list Z) j :
  j <> (a + 0)%nat -> j <> (a + 1)%nat ->
  j <> (a + 80)%nat -> j <> (a + 82)%nat -> j <> (a + 81)%nat ->
  j <> (a + 92)%nat -> j <> (a + 93)%nat ->
  ~ (a + 128 <= j <= a + 129 + length t)%nat ->
  psp_image a t m !! j = m !! j.
Proof.
  intros. unfold psp_image.
  rewrite !list_lookup_insert_ne by lia.
  destruct (decide (j < a + 129)%nat).
  - rewrite list_lookup_inserts_lt by lia.
    by rewrite !list_lookup_insert_ne by lia.
  - rewrite list_lookup_inserts_ge by lia.
    by rewrite !list_lookup_insert_ne by lia.
Qed.

(** C5: whenever the record fits in the buffer, [setup_psp] is defined and
    leaves CD 20 (INT 20h) at offset 0, CD 21 CB (INT 21h, RETF) at the
    offset of [DOSFarCall] and 01 20 at the start of [FCB1]. *)
Theorem setup_psp_fixed_bytes seg (memory : list Z) argv :
  uint32 (MK_FP seg 0) + sizeof_PSP <= Z.of_nat (length memory) ->
  exists m' : list Z,
    setup_psp seg memory argv = Some m' /\
    let at_ f i := m' !! Z.to_nat (uint32 (MK_FP seg 0) + offsetof f + i) in
    (at_ CPMExit 0 = Some 0xCD /\ at_ CPMExit 1 = Some 0x20) /\
    (at_ DOSFarCall 0 = Some 0xCD /\ at_ DOSFarCall 1 = Some 0x21 /\
     at_ DOSFarCall 2 = Some 0xCB) /\
    (at_ FCB1 0 = Some 0x01 /\ at_ FCB1 1 = Some 0x20).
Proof.
  intros Hfit. eexists. split; [by apply setup_psp_spec|].
  revert Hfit. change sizeof_PSP with 256. intros Hfit.
  assert (0 <= uint32 (MK_FP seg 0)) as Hpos
    by (unfold uint32; apply Z.mod_pos_bound; lia).
  set (abs := uint32 (MK_FP seg 0)) in *.
  pose proof (length_command_tail argv) as Hlen.
  cbv beta zeta. autorewrite with psp_layout.
  replace (Z.to_nat (abs + 0 + 0)) with (Z.to_nat abs + 0)%nat by lia.
  replace (Z.to_nat (abs + 0 + 1)) with (Z.to_nat abs + 1)%nat by lia.
  replace (Z.to_nat (abs + 80 + 0)) with (Z.to_nat abs + 80)%nat by lia.
  replace (Z.to_nat (abs + 80 + 1)) with (Z.to_nat abs + 81)%nat by lia.
  replace (Z.to_nat (abs + 80 + 2)) with (Z.to_nat abs + 82)%nat by lia.
  replace (Z.to_nat (abs + 92 + 0)) with (Z.to_nat abs + 92)%nat by lia.
  replace (Z.to_nat (abs + 92 + 1)) with (Z.to_nat abs + 93)%nat by lia.
  split; [|split].
  - apply psp_image_CPMExit; lia.
  - apply psp_image_DOSFarCall; lia.
  - apply psp_image_FCB1; lia.
Qed.

Lemma setup_psp_fixed_bytes_witness :
  exists m' : list Z,
    setup_psp 0 (replicate 256 7) ["unidos"; "a.com"] = Some m' /\
    let at_ f i := m' !! Z.to_nat (uint32 (MK_FP 0 0) + offsetof f + i) in
    (at_ CPMExit 0 = Some 0xCD /\ at_ CPMExit 1 = Some 0x20) /\
    (at_ DOSFarCall 0 = Some 0xCD /\ at_ DOSFarCall 1 = Some 0x21 /\
     at_ DOSFarCall 2 = Some 0xCB) /\
    (at_ FCB1 0 = Some 0x01 /\ at_ FCB1 1 = Some 0x20).
Proof.
  apply (setup_psp_fixed_bytes 0 (replicate 256 7) ["unidos"; "a.com"]).
  vm_compute. discriminate.
Defined.

(** C3: for every argument list, [setup_psp] is defined (nothing is rejected
    and no store leaves [CommandLine]); the length prefix is the number [n]
    of content bytes; [n] is the length of the spaced arguments capped at
    126; the content is the first [n] bytes of the spaced arguments; 0x0D
    follows the last content byte; the rest of [CommandLine] is untouched. *)
Theorem setup_psp_command_tail seg (memory : list Z) argv :
  uint32 (MK_FP seg 0) + sizeof_PSP <= Z.of_nat (length memory) ->
  exists m' : list Z,
    setup_psp seg memory argv = Some m' /\
    let abs := uint32 (MK_FP seg 0) in
    let len := Z.to_nat (abs + offsetof CommandLineLength) in
    let txt := Z.to_nat (abs + offsetof CommandLine) in
    let n := length (command_tail argv) in
    m' !! len = Some (Z.of_nat n) /\
    (n <= 126)%nat /\
    n = (length (tail_text argv) `min` 126)%nat /\
    (forall k, (k < n)%nat -> m' !! (txt + k)%nat = tail_text argv !! k) /\
    m' !! (txt + n)%nat = Some 0x0D /\
    (forall k, (n < k < 127)%nat -> m' !! (txt + k)%nat = memory !! (txt + k)%nat) /\
    length m' = length memory.
Proof.
  intros Hfit. eexists. split; [by apply setup_psp_spec|].
  revert Hfit. change sizeof_PSP with 256. intros Hfit.
  assert (0 <= uint32 (MK_FP seg 0)) as Hpos
    by (unfold uint32; apply Z.mod_pos_bound; lia).
  set (abs := uint32 (MK_FP seg 0)) in *.
  pose proof (length_command_tail argv) as Hlen.
  cbv beta zeta. autorewrite with psp_layout.
  replace (Z.to_nat (abs + 128)) with (Z.to_nat abs + 128)%nat by lia.
  replace (Z.to_nat (abs + 129)) with (Z.to_nat abs + 129)%nat by lia.
  repeat split.
  - apply psp_image_length_prefix; lia.
  - done.
  - unfold command_tail. rewrite length_take. lia.
  - intros k Hk. rewrite psp_image_content by lia.
    unfold command_tail in *. rewrite lookup_take_lt; [done|].
    rewrite length_take in Hk. lia.
  - apply psp_image_terminator; lia.
  - intros k Hk. apply psp_image_frame; lia.
  - apply length_psp_image.
Qed.

Lemma setup_psp_command_tail_witness :
  exists m' : list Z,
    setup_psp 0 (replicate 256 7) ["unidos"; "a.com"; "x"] = Some m' /\
    let abs := uint32 (MK_FP 0 0) in
    let len := Z.to_nat (abs + offsetof CommandLineLength) in
    let txt := Z.to_nat (abs + offsetof CommandLine) in
    let n := length (command_tail ["unidos"; "a.com"; "x"]) in
    m' !! len = Some (Z.of_nat n) /\
    (n <= 126)%nat /\
    n = (length (tail_text ["unidos"; "a.com"; "x"]) `min` 126)%nat /\
    (forall k, (k < n)%nat -> m' !! (txt + k)%nat = tail_text ["unidos"; "a.com"; "x"] !! k) /\
    m' !! (txt + n)%nat = Some 0x0D /\
    (forall k, (n < k < 127)%nat -> m' !! (txt + k)%nat = replicate 256 7 !! (txt + k)%nat) /\
    length m' = length (replicate 256 7).
Proof.
  apply (setup_psp_command_tail 0 (replicate 256 7) ["unidos"; "a.com"; "x"]).
  vm_compute. discriminate.
Defined.

(** One call of [setup_psp] with the argument vector (program name, image
    path, "foo", "bar"), on any buffer that holds the record: the length
    prefix is 8, the content is the 8 bytes of " foo bar" and 0x0D follows
    at once. *)
Lemma setup_psp_foo_bar prog image (memory : list Z) :
  (256 <= length memory)%nat ->
  exists m' : list Z,
    setup_psp 0 memory [prog; image; "foo"; "bar"] = Some m' /\
    m' !! 0x80%nat = Some 8 /\
    take 8 (drop 0x81 m') = byte_of <$> list_ascii_of_string " foo bar" /\
    m' !! (0x81 + 8)%nat = Some 0x0D.
Proof.
  intros Hfit. eexists. split.
  { apply setup_psp_spec. change (uint32 (MK_FP 0 0) + sizeof_PSP) with 256. lia. }
  change (Z.to_nat (uint32 (MK_FP 0 0))) with 0%nat.
  set (t := command_tail [prog; image; "foo"; "bar"]).
  assert (t = [32; 102; 111; 111; 32; 98; 97; 114]) as Ht by reflexivity.
  assert (length t = 8%nat) as Hlen by (by rewrite Ht).
  repeat split.
  - change 0x80%nat with (0 + 128)%nat.
    rewrite psp_image_length_prefix by lia. by rewrite Hlen.
  - apply list_eq. intros i. destruct (decide (i < 8)%nat) as [Hi|Hi].
    + rewrite lookup_take_lt, lookup_drop by done.
      change (0x81 + i)%nat with (0 + 129 + i)%nat.
      rewrite psp_image_content by lia. by rewrite Ht.
    + rewrite lookup_take_ge by lia. symmetry.
      apply lookup_ge_None_2. simpl. lia.
  - change (0x81 + 8)%nat with (0 + 129 + 8)%nat. rewrite <- Hlen.
    apply psp_image_terminator; lia.
Qed.

Lemma setup_psp_foo_bar_witness :
  exists m' : list Z,
    setup_psp 0 (replicate 256 0) ["unidos"; "a.com"; "foo"; "bar"] = Some m' /\
    m' !! 0x80%nat = Some 8 /\
    take 8 (drop 0x81 m') = byte_of <$> list_ascii_of_string " foo bar" /\
    m' !! (0x81 + 8)%nat = Some 0x0D.
Proof.
  apply (setup_psp_foo_bar "unidos" "a.com" (replicate 256 0)).
  vm_compute. lia.
Defined.

(** ** [load_com] *)

Lemma MEM_SIZE_eq : MEM_SIZE = 1048576.
Proof. reflexivity. Qed.

Lemma memset_all (m : list Z) v :
  Z.of_nat (length m) = MEM_SIZE ->
  memset m v MEM_SIZE = Some (replicate (Z.to_nat MEM_SIZE) v).
Proof.
  intros Hm. unfold memset. rewrite decide_True by (rewrite MEM_SIZE_eq in *; lia).
  rewrite drop_ge by lia. by rewrite app_nil_r.
Qed.

Lemma fread_zeros (f : list Z) :
  0 < Z.of_nat (length f) <= 0xff00 ->
  fread (replicate (Z.to_nat MEM_SIZE) 0) DOS_ADDR (Z.of_nat (length f)) f
  = Some (loaded f).
Proof.
  intros Hf. unfold fread, loaded, DOS_ADDR. rewrite MEM_SIZE_eq.
  rewrite take_ge by lia.
  rewrite decide_True by (rewrite length_replicate; lia).
  f_equal.
  replace (Z.to_nat 1048576)
    with (Z.to_nat 256 + (length f + Z.to_nat (1048576 - 256 - Z.of_nat (length f))))%nat
    by lia.
  rewrite !replicate_add.
  rewrite <- (length_replicate (Z.to_nat 256) 0) at 1.
  rewrite (list_inserts_app_r f (replicate (Z.to_nat 256) 0) _ 0).
  f_equal. apply list_inserts_0_r. by rewrite length_replicate.
Qed.

Lemma load_com_ok w (memory : list Z) fname f h :
  w_fopen w fname = Some f ->
  0 < Z.of_nat (length f) <= 0xff00 ->
  Z.of_nat (length memory) = MEM_SIZE ->
  load_com w memory fname h
  = (Ret (Z.of_nat (length f), loaded f),
     Host (UcEngine (loaded_regs (uc_regs (h_uc h))) (uc_mem (h_uc h))
             (uc_hooked (h_uc h)) (uc_stopped (h_uc h)))
          (h_out h)).
Proof.
  intros Hopen Hf Hm. unfold load_com. rewrite Hopen.
  rewrite decide_False by lia.
  rewrite memset_all by done.
  unfold mbind at 1, M_bind at 1, defined at 1, mret at 1, M_ret at 1.
  rewrite fread_zeros by done.
  reflexivity.
Qed.

(** What a loaded buffer holds, byte by byte. *)
Lemma loaded_lookup (f : list Z) (k : nat) :
  0 < Z.of_nat (length f) <= 0xff00 ->
  loaded f !! k =
    if decide (k < 256)%nat then Some 0
    else if decide (k < 256 + length f)%nat then f !! (k - 256)%nat
    else if decide (k < Z.to_nat MEM_SIZE)%nat then Some 0
    else None.
Proof.
  intros Hf. unfold loaded, DOS_ADDR. rewrite MEM_SIZE_eq.
  repeat case_decide.
  - rewrite lookup_app_l by (rewrite length_replicate; lia).
    apply lookup_replicate_2. lia.
  - rewrite lookup_app_r by (rewrite length_replicate; lia).
    rewrite length_replicate.
    rewrite lookup_app_l by lia. f_equal; lia.
  - rewrite lookup_app_r by (rewrite length_replicate; lia).
    rewrite length_replicate.
    rewrite lookup_app_r by lia.
    apply lookup_replicate_2. lia.
  - apply lookup_ge_None_2.
    rewrite !length_app, !length_replicate. lia.
Qed.

Lemma length_loaded (f : list Z) :
  0 < Z.of_nat (length f) <= 0xff00 ->
  length (loaded f) = Z.to_nat MEM_SIZE.
Proof.
  intros Hf. unfold loaded, DOS_ADDR. rewrite MEM_SIZE_eq.
  rewrite !length_app, !length_replicate. lia.
Qed.

(** C1: an image of [s] bytes, [0 < s <= 0xFF00], is loaded: [load_com]
    returns [s]; the buffer is zeroed as a whole, the file is read into the
    zeroed buffer at 0x100, and the result is 0x100 zero bytes, the [s]
    bytes of the file, and zero bytes up to [MEM_SIZE]. *)
Theorem load_com_image w (memory : list Z) fname (f : list Z) h :
  w_fopen w fname = Some f ->
  0 < Z.of_nat (length f) <= 0xFF00 ->
  Z.of_nat (length memory) = MEM_SIZE ->
  exists (m' : list Z) h',
    load_com w memory fname h = (Ret (Z.of_nat (length f), m'), h') /\
    memset memory 0 MEM_SIZE = Some (replicate (Z.to_nat MEM_SIZE) 0) /\
    fread (replicate (Z.to_nat MEM_SIZE) 0) DOS_ADDR (Z.of_nat (length f)) f = Some m' /\
    m' = replicate 0x100 0 ++ f
           ++ replicate (Z.to_nat MEM_SIZE - 0x100 - length f) 0 /\
    length m' = Z.to_nat MEM_SIZE /\
    (forall k, (k < length f)%nat -> m' !! (0x100 + k)%nat = f !! k) /\
    (forall k, (k < Z.to_nat MEM_SIZE)%nat ->
               ~ (0x100 <= k < 0x100 + length f)%nat -> m' !! k = Some 0).
Proof.
  intros Hopen Hf Hm. exists (loaded f). eexists.
  split; [by apply load_com_ok|].
  split; [by apply memset_all|].
  split; [by apply fread_zeros|].
  split.
  { unfold loaded, DOS_ADDR. rewrite MEM_SIZE_eq. do 3 f_equal. lia. }
  split; [by apply length_loaded|].
  split.
  - intros k Hk. rewrite loaded_lookup by done.
    rewrite decide_False by lia. rewrite decide_True by lia. f_equal. lia.
  - intros k Hk Hout. rewrite loaded_lookup by done.
    repeat case_decide; try done; lia.
Qed.

(** An image of 0 bytes or of more than 0xFF00 bytes is refused with the
    diagnostic on the standard error stream, the engine is closed and the
    process exits with [EXIT_FAILURE]; the buffer and the registers are not
    touched. *)
Lemma load_com_invalid_size w (memory : list Z) fname (f : list Z) h :
  w_fopen w fname = Some f ->
  Z.of_nat (length f) = 0 \/ Z.of_nat (length f) > 0xFF00 ->
  load_com w memory fname h
  = (Exit EXIT_FAILURE,
     Host (h_uc h) (h_out h ++ [Stderr ("Invalid file size" +:+ nl); UcClose])).
Proof.
  intros Hopen Hsz. unfold load_com. rewrite Hopen.
  rewrite decide_True by done.
  unfold mbind, M_bind, emit, uc_close, emit, exit. cbn [h_uc h_out].
  by rewrite <- app_assoc.
Qed.

Lemma load_com_not_found w (memory : list Z) fname h :
  w_fopen w fname = None ->
  load_com w memory fname h
  = (Exit EXIT_FAILURE, Host (h_uc h) (h_out h ++ [Perror "Error"; UcClose])).
Proof.
  intros Hopen. unfold load_com. rewrite Hopen.
  unfold mbind, M_bind, emit, uc_close, emit, exit. cbn [h_uc h_out].
  by rewrite <- app_assoc.
Qed.

(** [load_com] returns only for an image of a valid size, whatever the
    buffer. *)
Lemma load_com_Ret_inv w (memory : list Z) fname h r h' :
  load_com w memory fname h = (Ret r, h') ->
  exists f, w_fopen w fname = Some f /\ 0 < Z.of_nat (length f) <= 0xff00 /\
    h_out h' = h_out h /\
    uc_regs (h_uc h') = loaded_regs (uc_regs (h_uc h)).
Proof.
  intros Hload. destruct (w_fopen w fname) as [f|] eqn:Hopen.
  - exists f. split; [done|].
    destruct (decide (Z.of_nat (length f) = 0 \/ Z.of_nat (length f) > 0xff00)) as [Hsz|Hsz].
    { by rewrite (load_com_invalid_size _ _ _ f) in Hload. }
    split; [lia|].
    unfold load_com in Hload. rewrite Hopen in Hload.
    rewrite decide_False in Hload by done.
    destruct (memset memory 0 MEM_SIZE) as [m1|]; [|done].
    unfold mbind at 1, M_bind at 1, defined at 1, mret at 1, M_ret at 1 in Hload.
    destruct (fread m1 DOS_ADDR (Z.of_nat (length f)) f) as [m2|]; [|done].
    injection Hload as _ <-. done.
  - by rewrite load_com_not_found in Hload.
Qed.

(** C9: when [load_com] returns, SP is 0xFFFE and CS, DS, ES and SS are 0. *)
Theorem load_com_registers w (memory : list Z) fname h r h' :
  load_com w memory fname h = (Ret r, h') ->
  uc_regs (h_uc h') UC_X86_REG_SP = 0xFFFE /\
  uc_regs (h_uc h') UC_X86_REG_CS = 0 /\
  uc_regs (h_uc h') UC_X86_REG_DS = 0 /\
  uc_regs (h_uc h') UC_X86_REG_ES = 0 /\
  uc_regs (h_uc h') UC_X86_REG_SS = 0.
Proof.
  intros Hload. apply load_com_Ret_inv in Hload as (f & _ & _ & _ & ->).
  repeat split; reflexivity.
Qed.

(** ** [main] *)

Lemma bind_Ret {A B} (c : M A) (k : A -> M B) h a h' :
  c h = (Ret a, h') -> (c ≫= k) h = k a h'.
Proof. intros Hc. unfold mbind, M_bind. by rewrite Hc. Qed.

Lemma bind_Exit {A B} (c : M A) (k : A -> M B) h s h' :
  c h = (Exit s, h') -> (c ≫= k) h = (Exit s, h').
Proof. intros Hc. unfold mbind, M_bind. by rewrite Hc. Qed.

Lemma length_auto_memory w : Z.of_nat (length (auto_memory w)) = MEM_SIZE.
Proof.
  unfold auto_memory. rewrite length_fmap, length_seq, MEM_SIZE_eq. lia.
Qed.

Lemma length_fresh_mapping w :
  Z.of_nat (length (fresh_mapping w MEM_SIZE)) = MEM_SIZE.
Proof.
  unfold fresh_mapping. rewrite length_fmap, length_seq, MEM_SIZE_eq. lia.
Qed.

Lemma argv_1_length (argv : list string) fname :
  argv !! 1%nat = Some fname -> Z.of_nat (length argv) <> 1.
Proof. intros H%lookup_lt_Some. lia. Qed.

Lemma uc_open_ok w h :
  w_uc_open w = 0 ->
  uc_open w h = (Ret 0, Host (UcEngine (w_regs w) [] false false) (h_out h)).
Proof. intros H. unfold uc_open. by rewrite decide_True. Qed.

Lemma uc_open_failure w h :
  w_uc_open w <> 0 -> uc_open w h = (Ret (w_uc_open w), h).
Proof. intros H. unfold uc_open. by rewrite decide_False. Qed.

Lemma uc_mem_map_ok w size h :
  w_uc_mem_map w = 0 ->
  uc_mem_map w size h
  = (Ret 0,
     Host (UcEngine (uc_regs (h_uc h)) (fresh_mapping w size)
             (uc_hooked (h_uc h)) (uc_stopped (h_uc h)))
          (h_out h)).
Proof. intros H. unfold uc_mem_map. by rewrite decide_True. Qed.

Lemma uc_mem_map_failure w size h :
  w_uc_mem_map w <> 0 -> uc_mem_map w size h = (Ret (w_uc_mem_map w), h).
Proof. intros H. unfold uc_mem_map. by rewrite decide_False. Qed.

(** The first steps of [main] when an image path is given. *)
Ltac main_start Hargv :=
  unfold main;
  rewrite decide_False by (by eapply argv_1_length);
  rewrite Hargv; unfold defined at 1;
  erewrite bind_Ret by reflexivity.

(** No argument: the usage text on the standard output, status -1. *)
Lemma main_usage w prog :
  main w [prog] host0
  = (Ret (-1),
     Host (h_uc host0)
       [Stdout ("UniDOS for DOS emulation. Based on Unicorn engine (www.unicorn-engine.org)" +:+ nl);
        Stdout ("Syntax: " +:+ prog +:+ " <COM>" +:+ nl)]).
Proof. reflexivity. Qed.

(** [uc_open] fails: a diagnostic, status 1. *)
Lemma main_uc_open_failure w argv fname :
  argv !! 1%nat = Some fname ->
  w_uc_open w <> 0 ->
  main w argv host0
  = (Ret 1, Host (h_uc host0) [Stderr ("Cannot initialize unicorn" +:+ nl)]).
Proof.
  intros Hargv Hopen. main_start Hargv.
  erewrite bind_Ret by (by apply uc_open_failure).
  by rewrite decide_True.
Qed.

(** [uc_mem_map] fails: a diagnostic, the engine is closed, status 0. *)
Lemma main_uc_mem_map_failure w argv fname :
  argv !! 1%nat = Some fname ->
  w_uc_open w = 0 ->
  w_uc_mem_map w <> 0 ->
  main w argv host0
  = (Ret 0,
     Host (UcEngine (w_regs w) [] false false)
       [Stderr ("Failed to write emulation code to memory, quit!" +:+ nl); UcClose]).
Proof.
  intros Hargv Hopen Hmap. main_start Hargv.
  erewrite bind_Ret by (by apply uc_open_ok).
  rewrite decide_False by lia.
  erewrite bind_Ret by (by apply uc_mem_map_failure).
  by rewrite decide_True.
Qed.

(** With an image path, an engine and a mapping, [main] calls [load_com]; if
    that exits, so does the process, having done nothing else. *)
Lemma main_load_exit w argv fname s h' :
  argv !! 1%nat = Some fname ->
  w_uc_open w = 0 ->
  w_uc_mem_map w = 0 ->
  load_com w (auto_memory w) fname
    (Host (UcEngine (w_regs w) (fresh_mapping w MEM_SIZE) false false) [])
  = (Exit s, h') ->
  main w argv host0 = (Exit s, h').
Proof.
  intros Hargv Hopen Hmap Hload. main_start Hargv.
  erewrite bind_Ret by (by apply uc_open_ok).
  rewrite decide_False by lia.
  erewrite bind_Ret by (by apply uc_mem_map_ok).
  rewrite decide_False by lia.
  erewrite bind_Ret by reflexivity.
  erewrite bind_Exit by exact Hload. done.
Qed.

Lemma uc_mem_write_ok address (bytes : list Z) size h :
  0 <= address -> 0 <= size ->
  address + size <= Z.of_nat (length (uc_mem (h_uc h))) ->
  uc_mem_write address bytes size h
  = (Ret tt,
     Host (UcEngine (uc_regs (h_uc h))
             (list_inserts (Z.to_nat address) (take (Z.to_nat size) bytes)
                (uc_mem (h_uc h)))
             (uc_hooked (h_uc h)) (uc_stopped (h_uc h)))
          (h_out h)).
Proof.
  intros Ha Hs Hfit. unfold uc_mem_write.
  erewrite bind_Ret by reflexivity.
  by rewrite decide_True.
Qed.

(** A valid image: the run loop is entered once, on [started_engine], and
    the status is 0 whatever it reports. *)
Lemma main_ok w argv fname (f : list Z) :
  argv !! 1%nat = Some fname ->
  w_uc_open w = 0 ->
  w_uc_mem_map w = 0 ->
  w_fopen w fname = Some f ->
  0 < Z.of_nat (length f) <= 0xff00 ->
  main w argv host0
  = (Ret 0,
     Host (started_engine w argv f)
       (UcEmuStart (started_engine w argv f) DOS_ADDR (DOS_ADDR + 0x10000)
          :: emu_diagnostic w ++ [UcClose])).
Proof.
  intros Hargv Hopen Hmap Hfile Hf. main_start Hargv.
  erewrite bind_Ret by (by apply uc_open_ok).
  rewrite decide_False by lia.
  erewrite bind_Ret by (by apply uc_mem_map_ok).
  rewrite decide_False by lia.
  erewrite bind_Ret by reflexivity.
  erewrite bind_Ret
    by (apply (load_com_ok w _ fname f); auto using length_auto_memory).
  cbv beta iota. cbn [h_uc h_out uc_regs uc_mem uc_hooked uc_stopped].
  rewrite setup_psp_spec
    by (rewrite length_loaded, MEM_SIZE_eq by done; vm_compute; discriminate).
  change (Z.to_nat (uint32 (MK_FP 0 0))) with 0%nat.
  unfold defined.
  erewrite bind_Ret by reflexivity.
  erewrite bind_Ret.
  2:{ apply uc_mem_write_ok; cbn [h_uc uc_mem].
      - lia.
      - unfold DOS_ADDR. lia.
      - rewrite length_fresh_mapping, MEM_SIZE_eq. unfold DOS_ADDR. lia. }
  cbn [h_uc h_out uc_regs uc_mem uc_hooked uc_stopped].
  do 2 (erewrite bind_Ret by reflexivity).
  unfold emu_diagnostic, started_engine.
  destruct (decide (w_uc_emu_start w <> 0)); reflexivity.
Qed.

(** The image cannot be opened: [perror], the engine is closed, the process
    exits with [EXIT_FAILURE]. *)
Lemma main_not_found w argv fname :
  argv !! 1%nat = Some fname ->
  w_uc_open w = 0 ->
  w_uc_mem_map w = 0 ->
  w_fopen w fname = None ->
  main w argv host0
  = (Exit EXIT_FAILURE,
     Host (UcEngine (w_regs w) (fresh_mapping w MEM_SIZE) false false)
       [Perror "Error"; UcClose]).
Proof.
  intros Hargv Hopen Hmap Hfile.
  eapply main_load_exit; [done..|]. by rewrite load_com_not_found.
Qed.

Lemma main_load_invalid w argv fname (f : list Z) :
  argv !! 1%nat = Some fname ->
  w_uc_open w = 0 ->
  w_uc_mem_map w = 0 ->
  w_fopen w fname = Some f ->
  Z.of_nat (length f) = 0 \/ Z.of_nat (length f) > 0xFF00 ->
  main w argv host0
  = (Exit EXIT_FAILURE,
     Host (UcEngine (w_regs w) (fresh_mapping w MEM_SIZE) false false)
       [Stderr ("Invalid file size" +:+ nl); UcClose]).
Proof.
  intros Hargv Hopen Hmap Hfile Hsz.
  eapply main_load_exit; [done..|]. by rewrite (load_com_invalid_size _ _ _ f).
Qed.

(** C2: an image of 0 bytes or of more than 0xFF00 bytes makes [load_com]
    print the diagnostic, close the engine and exit with [EXIT_FAILURE];
    the process ends there with a nonzero status, and [uc_emu_start] is
    never called. *)
Theorem main_invalid_size w argv fname (f : list Z) :
  argv !! 1%nat = Some fname ->
  w_uc_open w = 0 ->
  w_uc_mem_map w = 0 ->
  w_fopen w fname = Some f ->
  Z.of_nat (length f) = 0 \/ Z.of_nat (length f) > 0xFF00 ->
  (forall (memory : list Z) h,
     load_com w memory fname h
     = (Exit EXIT_FAILURE,
        Host (h_uc h) (h_out h ++ [Stderr ("Invalid file size" +:+ nl); UcClose]))) /\
  exit_status w argv = Some EXIT_FAILURE /\
  EXIT_FAILURE <> 0 /\
  trace w argv = [Stderr ("Invalid file size" +:+ nl); UcClose] /\
  (forall uc b e, UcEmuStart uc b e ∉ trace w argv).
Proof.
  intros Hargv Hopen Hmap Hfile Hsz.
  pose proof (main_load_invalid w argv fname f Hargv Hopen Hmap Hfile Hsz) as Hmain.
  split; [intros; by apply (load_com_invalid_size _ _ _ f)|].
  unfold exit_status, trace. rewrite Hmain. cbn [fst snd h_out].
  repeat split; [done|].
  intros uc b e Hin. apply elem_of_cons in Hin as [?|Hin]; [done|].
  apply list_elem_of_singleton in Hin. done.
Qed.

Lemma main_invalid_size_witness :
  (forall (memory : list Z) h,
     load_com empty_file_world memory "a.com" h
     = (Exit EXIT_FAILURE,
        Host (h_uc h) (h_out h ++ [Stderr ("Invalid file size" +:+ nl); UcClose]))) /\
  exit_status empty_file_world ["unidos"; "a.com"] = Some EXIT_FAILURE /\
  EXIT_FAILURE <> 0 /\
  trace empty_file_world ["unidos"; "a.com"] = [Stderr ("Invalid file size" +:+ nl); UcClose] /\
  (forall uc b e, UcEmuStart uc b e ∉ trace empty_file_world ["unidos"; "a.com"]).
Proof.
  apply (main_invalid_size empty_file_world ["unidos"; "a.com"] "a.com" []);
    try reflexivity.
  left. reflexivity.
Defined.

(** C8, the failing path: when [uc_mem_map] fails the process prints its
    diagnostic, closes the engine and ends with status 0. *)
Theorem main_map_failure_status w argv fname :
  argv !! 1%nat = Some fname ->
  w_uc_open w = 0 ->
  w_uc_mem_map w <> 0 ->
  exit_status w argv = Some 0 /\
  trace w argv
  = [Stderr ("Failed to write emulation code to memory, quit!" +:+ nl); UcClose].
Proof.
  intros Hargv Hopen Hmap. unfold exit_status, trace.
  by rewrite (main_uc_mem_map_failure w argv fname).
Qed.

Lemma main_map_failure_status_witness :
  exit_status unmapped_world ["unidos"; "a.com"] = Some 0 /\
  trace unmapped_world ["unidos"; "a.com"]
  = [Stderr ("Failed to write emulation code to memory, quit!" +:+ nl); UcClose].
Proof.
  apply (main_map_failure_status unmapped_world ["unidos"; "a.com"] "a.com").
  - reflexivity.
  - reflexivity.
  - vm_compute. discriminate.
Defined.

(** The statuses of the other ways out of [main]. *)
Lemma main_exit_statuses w argv fname :
  argv !! 1%nat = Some fname ->
  (forall prog, exit_status w [prog] = Some (-1)) /\
  (w_uc_open w <> 0 -> exit_status w argv = Some 1) /\
  (w_uc_open w = 0 -> w_uc_mem_map w = 0 -> w_fopen w fname = None ->
   exit_status w argv = Some EXIT_FAILURE) /\
  (forall f : list Z,
     w_uc_open w = 0 -> w_uc_mem_map w = 0 -> w_fopen w fname = Some f ->
     if decide (0 < Z.of_nat (length f) <= 0xff00)
     then exit_status w argv = Some 0
     else exit_status w argv = Some EXIT_FAILURE).
Proof.
  intros Hargv. unfold exit_status. repeat split.
  - intros. by rewrite (main_uc_open_failure w argv fname).
  - intros. by rewrite (main_not_found w argv fname).
  - intros f Hopen Hmap Hfile. case_decide as Hsz.
    + by rewrite (main_ok w argv fname f).
    + by rewrite (main_load_invalid w argv fname f) by (done || lia).
Qed.

(** ** [hook_intr] *)

Lemma store_low_low bits old v :
  0 <= bits -> store_low bits old v mod 2 ^ bits = v mod 2 ^ bits.
Proof.
  intros Hb. unfold store_low.
  rewrite Z.add_comm, Z.mul_comm, Z_mod_plus_full. apply Z.mod_mod.
  apply Z.pow_nonzero; lia.
Qed.

Lemma store_low_high bits old v :
  0 <= bits -> store_low bits old v / 2 ^ bits = old / 2 ^ bits.
Proof.
  intros Hb. unfold store_low.
  assert (0 < 2 ^ bits) as Hpow by (apply Z.pow_pos_nonneg; lia).
  rewrite Z.add_comm, Z.mul_comm, Z_div_plus_full by lia.
  rewrite Z.div_small; [lia|]. apply Z.mod_pos_bound. lia.
Qed.

(** A byte read into a byte: nothing of the old value is left. *)
Lemma store_low_uint8 old v : store_low 8 (uint8 old) v = uint8 v.
Proof.
  unfold store_low, uint8.
  rewrite (Z.div_small (old mod 2 ^ 8)) by (apply Z.mod_pos_bound; lia). lia.
Qed.

Lemma store_low_uint32_range old v :
  0 <= store_low 16 (uint32 old) v < 2 ^ 32.
Proof.
  unfold store_low, uint32.
  pose proof (Z.mod_pos_bound old (2 ^ 32) ltac:(lia)) as Ho.
  pose proof (Z.mod_pos_bound v (2 ^ 16) ltac:(lia)) as Hv.
  assert (0 <= old mod 2 ^ 32 / 2 ^ 16 < 2 ^ 16) as Hq.
  { split; [apply Z.div_pos; lia|]. apply Z.div_lt_upper_bound; lia. }
  lia.
Qed.

Lemma hook_intr_eq int20 int21 r_ip_0 r_ah_0 intno h :
  hook_intr int20 int21 r_ip_0 r_ah_0 intno h
  = if decide (intno = 0x21) then int21 h
    else if decide (intno = 0x20) then int20 h
    else (Ret tt,
          Host (h_uc h)
            (h_out h
             ++ [Stdout (intr_log
                           (store_low 16 (uint32 r_ip_0) (uc_regs (h_uc h) UC_X86_REG_IP))
                           intno
                           (uint8 (uc_regs (h_uc h) UC_X86_REG_AH)))])).
Proof.
  unfold hook_intr, uc_reg_read. cbv zeta.
  do 2 (erewrite bind_Ret by reflexivity).
  cbn [reg_bits]. rewrite store_low_uint8.
  repeat case_decide; reflexivity.
Qed.

(** C7: for a vector other than 0x20 and 0x21, [hook_intr] prints one line
    and returns: no handler runs, and the engine, with its stop request, is
    as before.  The line holds the vector and AH; before them it holds
    [r_ip], whose low 16 bits are the instruction pointer and whose high 16
    bits are what the variable held, since it is not initialised.  For
    every vector, a call of [hook_intr] that ends the emulation is the call
    of the handler of vector 0x20 or 0x21, which ended it. *)
Theorem hook_intr_unhandled int20 int21 r_ip_0 r_ah_0 intno h :
  intno <> 0x20 ->
  intno <> 0x21 ->
  (exists r_ip,
     hook_intr int20 int21 r_ip_0 r_ah_0 intno h
     = (Ret tt,
        Host (h_uc h)
          (h_out h
           ++ [Stdout (intr_log r_ip intno (uint8 (uc_regs (h_uc h) UC_X86_REG_AH)))])) /\
     0 <= r_ip < 2 ^ 32 /\
     r_ip mod 2 ^ 16 = uc_regs (h_uc h) UC_X86_REG_IP mod 2 ^ 16 /\
     r_ip / 2 ^ 16 = uint32 r_ip_0 / 2 ^ 16) /\
  (forall v h0,
     uc_stopped (h_uc h0) = false ->
     halts (hook_intr int20 int21 r_ip_0 r_ah_0 v h0) ->
     (v = 0x20 /\ hook_intr int20 int21 r_ip_0 r_ah_0 v h0 = int20 h0
      /\ halts (int20 h0)) \/
     (v = 0x21 /\ hook_intr int20 int21 r_ip_0 r_ah_0 v h0 = int21 h0
      /\ halts (int21 h0))).
Proof.
  intros H20 H21. split.
  - exists (store_low 16 (uint32 r_ip_0) (uc_regs (h_uc h) UC_X86_REG_IP)).
    split; [|split; [|split]].
    + rewrite hook_intr_eq. by rewrite !decide_False.
    + apply store_low_uint32_range.
    + apply store_low_low. lia.
    + apply store_low_high. lia.
  - intros v h0 Hrun. rewrite hook_intr_eq.
    destruct (decide (v = 0x21)) as [->|]; [by right|].
    destruct (decide (v = 0x20)) as [->|]; [by left|].
    intros [Hret|Hstop].
    + by destruct (Hret tt).
    + cbn [snd h_uc] in Hstop. congruence.
Qed.

Lemma hook_intr_unhandled_witness :
  (exists r_ip,
     hook_intr stopping_handler idle_handler 0xaaaa5555 0x77 0x10 host0
     = (Ret tt,
        Host (h_uc host0)
          (h_out host0
           ++ [Stdout (intr_log r_ip 0x10
                         (uint8 (uc_regs (h_uc host0) UC_X86_REG_AH)))])) /\
     0 <= r_ip < 2 ^ 32 /\
     r_ip mod 2 ^ 16 = uc_regs (h_uc host0) UC_X86_REG_IP mod 2 ^ 16 /\
     r_ip / 2 ^ 16 = uint32 0xaaaa5555 / 2 ^ 16) /\
  (forall v h0,
     uc_stopped (h_uc h0) = false ->
     halts (hook_intr stopping_handler idle_handler 0xaaaa5555 0x77 v h0) ->
     (v = 0x20 /\ hook_intr stopping_handler idle_handler 0xaaaa5555 0x77 v h0
                  = stopping_handler h0
      /\ halts (stopping_handler h0)) \/
     (v = 0x21 /\ hook_intr stopping_handler idle_handler 0xaaaa5555 0x77 v h0
                  = idle_handler h0
      /\ halts (idle_handler h0))).
Proof.
  apply (hook_intr_unhandled stopping_handler idle_handler 0xaaaa5555 0x77 0x10 host0);
    lia.
Defined.

(** With IP = 0x1f0 and AH = 0x0e, in a variable that held 0xaaaa5555: the
    high half of the printed [r_ip] is what was there. *)
Example hook_intr_log_line :
  snd (hook_intr stopping_handler idle_handler 0xaaaa5555 0x77 0x10
         (Host (UcEngine (set_reg UC_X86_REG_AH 0x0e (set_reg UC_X86_REG_IP 0x1f0 (fun _ => 0)))
                         [] true false) []))
  = Host (UcEngine (set_reg UC_X86_REG_AH 0x0e (set_reg UC_X86_REG_IP 0x1f0 (fun _ => 0)))
                   [] true false)
         [Stdout (">>> 0xaaaa01f0: interrupt: 10, function e" +:+ nl)].
Proof. reflexivity. Qed.

Example hook_intr_int20_stops :
  uc_stopped (h_uc (snd (hook_intr stopping_handler idle_handler 0 0 0x20 host0))) = true.
Proof. reflexivity. Qed.

(** ** Witnesses for [load_com] *)

Lemma load_com_image_witness :
  exists (m' : list Z) h',
    load_com fine_world (auto_memory fine_world) "a.com" host0
    = (Ret (Z.of_nat (length int20_com), m'), h') /\
    memset (auto_memory fine_world) 0 MEM_SIZE = Some (replicate (Z.to_nat MEM_SIZE) 0) /\
    fread (replicate (Z.to_nat MEM_SIZE) 0) DOS_ADDR (Z.of_nat (length int20_com)) int20_com
    = Some m' /\
    m' = replicate 0x100 0 ++ int20_com
           ++ replicate (Z.to_nat MEM_SIZE - 0x100 - length int20_com) 0 /\
    length m' = Z.to_nat MEM_SIZE /\
    (forall k, (k < length int20_com)%nat -> m' !! (0x100 + k)%nat = int20_com !! k) /\
    (forall k, (k < Z.to_nat MEM_SIZE)%nat ->
               ~ (0x100 <= k < 0x100 + length int20_com)%nat -> m' !! k = Some 0).
Proof.
  apply (load_com_image fine_world (auto_memory fine_world) "a.com" int20_com host0).
  - reflexivity.
  - simpl. lia.
  - apply length_auto_memory.
Defined.

Lemma load_com_registers_witness :
  exists r h',
    load_com fine_world (auto_memory fine_world) "a.com" host0 = (Ret r, h') /\
    uc_regs (h_uc h') UC_X86_REG_SP = 0xFFFE /\
    uc_regs (h_uc h') UC_X86_REG_CS = 0 /\
    uc_regs (h_uc h') UC_X86_REG_DS = 0 /\
    uc_regs (h_uc h') UC_X86_REG_ES = 0 /\
    uc_regs (h_uc h') UC_X86_REG_SS = 0.
Proof.
  assert (load_com fine_world (auto_memory fine_world) "a.com" host0
          = (Ret (Z.of_nat (length int20_com), loaded int20_com),
             Host (UcEngine (loaded_regs (fun _ => 0)) [] false false) []))
    as Hload.
  { apply (load_com_ok fine_world (auto_memory fine_world) "a.com" int20_com host0).
    - reflexivity.
    - simpl. lia.
    - apply length_auto_memory. }
  eexists _, _. split; [exact Hload|].
  exact (load_com_registers _ _ _ _ _ _ Hload).
Defined.

(** ** The record the guest finds *)

(** [uc_mem_write (uc, 0, memory, DOS_ADDR + fsize)] carries the record and
    the image over to the engine. *)
Lemma started_engine_lookup w argv (f : list Z) (j : nat) :
  0 < Z.of_nat (length f) <= 0xff00 ->
  (j < 256 + length f)%nat ->
  uc_mem (started_engine w argv f) !! j
  = psp_image 0 (command_tail argv) (loaded f) !! j.
Proof.
  intros Hf Hj. unfold started_engine. cbn [uc_mem].
  pose proof (length_fresh_mapping w) as Hfresh.
  pose proof (length_loaded f Hf) as Hloaded.
  rewrite MEM_SIZE_eq in *. unfold DOS_ADDR.
  rewrite list_lookup_inserts
    by (rewrite ?length_take, ?length_psp_image; lia).
  rewrite lookup_take_lt by lia. f_equal. lia.
Qed.

(** Where the members that [setup_psp] does not assign to lie. *)
Lemma unassigned_field_bytes fld i :
  fld ∉ assigned_fields ->
  0 <= i < field_size fld ->
  2 <= offsetof fld + i < 80 \/ 83 <= offsetof fld + i < 92
  \/ 108 <= offsetof fld + i < 128.
Proof.
  unfold assigned_fields. rewrite !not_elem_of_cons.
  intros (? & ? & ? & ? & ? & _) Hi.
  destruct fld; try done;
    match goal with
    | H : context [field_size ?f] |- _ =>
        let n := eval vm_compute in (field_size f) in
        let o := eval vm_compute in (offsetof f) in
        change (field_size f) with n in H; change (offsetof f) with o
    end; lia.
Qed.

(** The bytes of the record in the engine that no store of [setup_psp]
    reaches are the zeros of [memset]. *)
Lemma started_engine_zero w argv (f : list Z) (j : nat) :
  0 < Z.of_nat (length f) <= 0xff00 ->
  (2 <= j < 80 \/ 83 <= j < 92 \/ 94 <= j < 128
   \/ 129 + length (command_tail argv) < j < 256)%nat ->
  uc_mem (started_engine w argv f) !! j = Some 0.
Proof.
  intros Hf Hj. rewrite started_engine_lookup by lia.
  rewrite psp_image_frame by lia.
  rewrite loaded_lookup by done. rewrite decide_True by lia. done.
Qed.

(** C10: whenever an image is loaded, the run loop is entered on an engine
    whose record holds zero in every byte of every member that [setup_psp]
    does not assign to (the free-segment pointer, the DOS version, the
    environment segment, the second FCB, the reserved members and the
    others), in the bytes of [FCB1] after its first two, and in the bytes of
    [CommandLine] after the terminator. *)
Theorem psp_unassigned_zero w argv fname (f : list Z) :
  argv !! 1%nat = Some fname ->
  w_uc_open w = 0 ->
  w_uc_mem_map w = 0 ->
  w_fopen w fname = Some f ->
  0 < Z.of_nat (length f) <= 0xFF00 ->
  exists uc,
    trace w argv !! 0%nat = Some (UcEmuStart uc DOS_ADDR (DOS_ADDR + 0x10000)) /\
    (forall fld i,
       fld ∉ assigned_fields -> 0 <= i < field_size fld ->
       uc_mem uc !! Z.to_nat (offsetof fld + i) = Some 0) /\
    (forall i,
       2 <= i < field_size FCB1 ->
       uc_mem uc !! Z.to_nat (offsetof FCB1 + i) = Some 0) /\
    (forall i,
       Z.of_nat (length (command_tail argv)) < i < field_size CommandLine ->
       uc_mem uc !! Z.to_nat (offsetof CommandLine + i) = Some 0).
Proof.
  intros Hargv Hopen Hmap Hfile Hf. exists (started_engine w argv f).
  split.
  { unfold trace. by rewrite (main_ok w argv fname f). }
  repeat split.
  - intros fld i Hfld Hi.
    pose proof (unassigned_field_bytes fld i Hfld Hi).
    apply started_engine_zero; [done|lia].
  - change (field_size FCB1) with 16. change (offsetof FCB1) with 92.
    intros i Hi. apply started_engine_zero; [done|lia].
  - change (field_size CommandLine) with 127. change (offsetof CommandLine) with 129.
    intros i Hi. apply started_engine_zero; [done|lia].
Qed.

Lemma psp_unassigned_zero_witness :
  exists uc,
    trace fine_world ["unidos"; "a.com"; "foo"; "bar"] !! 0%nat
    = Some (UcEmuStart uc DOS_ADDR (DOS_ADDR + 0x10000)) /\
    (forall fld i,
       fld ∉ assigned_fields -> 0 <= i < field_size fld ->
       uc_mem uc !! Z.to_nat (offsetof fld + i) = Some 0) /\
    (forall i,
       2 <= i < field_size FCB1 ->
       uc_mem uc !! Z.to_nat (offsetof FCB1 + i) = Some 0) /\
    (forall i,
       Z.of_nat (length (command_tail ["unidos"; "a.com"; "foo"; "bar"])) < i
         < field_size CommandLine ->
       uc_mem uc !! Z.to_nat (offsetof CommandLine + i) = Some 0).
Proof.
  apply (psp_unassigned_zero fine_world ["unidos"; "a.com"; "foo"; "bar"]
           "a.com" int20_com); try reflexivity.
  simpl. lia.
Defined.

(** ** A whole run *)

(** The program name, the image path and the arguments [foo bar], on an
    image that is INT 20h alone: the run loop is entered once, from 0x100
    to 0x10100, the engine is closed and the status is 0. *)
Example main_foo_bar :
  main fine_world ["unidos"; "a.com"; "foo"; "bar"] host0
  = (Ret 0,
     Host (started_engine fine_world ["unidos"; "a.com"; "foo"; "bar"] int20_com)
       [UcEmuStart (started_engine fine_world ["unidos"; "a.com"; "foo"; "bar"] int20_com)
          0x100 0x10100;
        UcClose]).
Proof.
  rewrite (main_ok fine_world _ "a.com" int20_com); try reflexivity.
  simpl. lia.
Qed.

(** * Further properties *)

Lemma started_engine_first w argv fname (f : list Z) :
  argv !! 1%nat = Some fname ->
  w_uc_open w = 0 ->
  w_uc_mem_map w = 0 ->
  w_fopen w fname = Some f ->
  0 < Z.of_nat (length f) <= 0xff00 ->
  trace w argv !! 0%nat
  = Some (UcEmuStart (started_engine w argv f) 0x100 0x10100).
Proof.
  intros. unfold trace. by rewrite (main_ok w argv fname f).
Qed.

(** ** The emulator invoked with [foo bar] *)

(** The tail of the record in the engine the run loop is entered on. *)
Lemma started_engine_tail w argv (f : list Z) :
  0 < Z.of_nat (length f) <= 0xff00 ->
  let mem := uc_mem (started_engine w argv f) in
  let n := length (command_tail argv) in
  mem !! 0x80%nat = Some (Z.of_nat n) /\
  take n (drop 0x81 mem) = command_tail argv /\
  mem !! (0x81 + n)%nat = Some 0x0D.
Proof.
  intros Hf.
  pose proof (length_command_tail argv) as Hlen.
  pose proof (length_loaded f Hf) as Hloaded. rewrite MEM_SIZE_eq in Hloaded.
  assert (forall j, (j < 256)%nat ->
            uc_mem (started_engine w argv f) !! j
            = psp_image 0 (command_tail argv) (loaded f) !! j) as Hrec
    by (intros; apply started_engine_lookup; (assumption || lia)).
  pose proof (psp_image_length_prefix 0 (command_tail argv) (loaded f)) as L0.
  pose proof (psp_image_terminator 0 (command_tail argv) (loaded f)) as T0.
  pose proof (psp_image_content 0 (command_tail argv) (loaded f)) as C0.
  set (mem := uc_mem (started_engine w argv f)) in *.
  set (img := psp_image 0 (command_tail argv) (loaded f)) in *.
  clearbody mem img. cbv zeta.
  split; [|split].
  - rewrite Hrec by lia. apply L0; lia.
  - apply list_eq. intros k.
    destruct (decide (k < length (command_tail argv))%nat) as [Hk|Hk].
    + rewrite lookup_take_lt, lookup_drop, Hrec by lia. apply C0; lia.
    + rewrite lookup_take_ge by lia. symmetry. apply lookup_ge_None_2. lia.
  - rewrite Hrec by lia. apply T0; lia.
Qed.

(** C4: the emulator invoked with the argument vector (program name, image
    path, "foo", "bar") on an image that loads: [main] enters the run loop
    on an engine whose record has the length prefix 8 at 0x80, the 8 bytes
    of " foo bar" from 0x81, and 0x0D right behind them at 0x89. *)
Theorem main_foo_bar_tail w prog image (f : list Z) :
  w_uc_open w = 0 ->
  w_uc_mem_map w = 0 ->
  w_fopen w image = Some f ->
  0 < Z.of_nat (length f) <= 0xFF00 ->
  exists uc,
    trace w [prog; image; "foo"; "bar"] !! 0%nat
    = Some (UcEmuStart uc 0x100 0x10100) /\
    uc_mem uc !! 0x80%nat = Some 8 /\
    take 8 (drop 0x81 (uc_mem uc)) = byte_of <$> list_ascii_of_string " foo bar" /\
    uc_mem uc !! (0x81 + 8)%nat = Some 0x0D.
Proof.
  intros Hopen Hmap Hfile Hf.
  exists (started_engine w [prog; image; "foo"; "bar"] f).
  split.
  { apply (started_engine_first w _ image f); (assumption || reflexivity). }
  pose proof (started_engine_tail w [prog; image; "foo"; "bar"] f Hf) as Htail.
  assert (command_tail [prog; image; "foo"; "bar"]
          = byte_of <$> list_ascii_of_string " foo bar") as Ht by reflexivity.
  set (mem := uc_mem (started_engine w [prog; image; "foo"; "bar"] f)) in *.
  clearbody mem. cbv zeta in Htail. rewrite Ht in Htail.
  exact Htail.
Qed.

Lemma main_foo_bar_tail_witness :
  exists uc,
    trace fine_world ["unidos"; "a.com"; "foo"; "bar"] !! 0%nat
    = Some (UcEmuStart uc 0x100 0x10100) /\
    uc_mem uc !! 0x80%nat = Some 8 /\
    take 8 (drop 0x81 (uc_mem uc)) = byte_of <$> list_ascii_of_string " foo bar" /\
    uc_mem uc !! (0x81 + 8)%nat = Some 0x0D.
Proof.
  apply (main_foo_bar_tail fine_world "unidos" "a.com" int20_com);
    try reflexivity.
  simpl. lia.
Defined.

(** ** [main], all its ways out *)

Lemma main_outcome_eq w argv : main w argv host0 = main_outcome w argv.
Proof.
  destruct argv as [|prog [|fname rest]].
  - reflexivity.
  - apply main_usage.
  - unfold main_outcome.
    destruct (decide (w_uc_open w <> 0)) as [Hopen|Hopen].
    { by apply (main_uc_open_failure w _ fname). }
    destruct (decide (w_uc_mem_map w <> 0)) as [Hmap|Hmap].
    { apply (main_uc_mem_map_failure w _ fname); [done|lia|done]. }
    destruct (w_fopen w fname) as [f|] eqn:Hfile.
    + destruct (decide (0 < Z.of_nat (length f) <= 0xff00)) as [Hf|Hf].
      * apply (main_ok w _ fname f); [done|lia|lia|done|done].
      * apply (main_load_invalid w _ fname f); [done|lia|lia|done|lia].
    + apply (main_not_found w _ fname); [done|lia|lia|done].
Qed.

(** X7: the exit status of the process, path by path: -1 without an image
    path; 1 when [uc_open] fails; 0 when [uc_mem_map] fails; [EXIT_FAILURE]
    when the image cannot be opened or has no valid size; 0 once the run
    loop has been entered, whatever it reports. *)
Theorem exit_status_table w prog rest :
  exit_status w (prog :: rest) =
    match rest with
    | [] => Some (-1)
    | fname :: _ =>
        if decide (w_uc_open w <> 0) then Some 1
        else if decide (w_uc_mem_map w <> 0) then Some 0
        else match w_fopen w fname with
             | None => Some EXIT_FAILURE
             | Some f =>
                 if decide (0 < Z.of_nat (length f) <= 0xff00) then Some 0
                 else Some EXIT_FAILURE
             end
    end.
Proof.
  unfold exit_status. rewrite main_outcome_eq. unfold main_outcome.
  destruct rest as [|fname rest]; [done|].
  repeat case_decide; try done.
  destruct (w_fopen w fname); [|done]. by case_decide.
Qed.

Lemma no_start_in (tr : list event) uc b e :
  forallb (fun ev => negb (is_start ev)) tr = true -> UcEmuStart uc b e ∉ tr.
Proof.
  intros Hall Hin. apply list_elem_of_In in Hin.
  rewrite forallb_forall in Hall. by apply Hall in Hin.
Qed.

Lemma no_start_in_diagnostic w : 
  forallb (fun ev => negb (is_start ev)) (emu_diagnostic w ++ [UcClose]) = true.
Proof. unfold emu_diagnostic. by case_decide. Qed.

(** X8: the run loop is entered exactly when there is an image path, the
    engine opens, the mapping succeeds and the image opens with a size in
    1..0xFF00; it is then entered once, first of all that the process does,
    from 0x100 to 0x10100. *)
Theorem emulation_starts_iff w argv :
  ((exists uc b e, UcEmuStart uc b e ∈ trace w argv) <->
   (exists fname (f : list Z),
      argv !! 1%nat = Some fname /\ w_uc_open w = 0 /\ w_uc_mem_map w = 0 /\
      w_fopen w fname = Some f /\ 0 < Z.of_nat (length f) <= 0xFF00)) /\
  (forall uc b e, UcEmuStart uc b e ∈ trace w argv ->
     trace w argv !! 0%nat = Some (UcEmuStart uc b e) /\
     b = 0x100 /\ e = 0x10100 /\
     forall i, (0 < i)%nat -> trace w argv !! i <> Some (UcEmuStart uc b e)).
Proof.
  assert (forall tr : list event,
            forallb (fun ev => negb (is_start ev)) tr = true ->
            ~ (exists fname (f : list Z),
                 argv !! 1%nat = Some fname /\ w_uc_open w = 0 /\
                 w_uc_mem_map w = 0 /\ w_fopen w fname = Some f /\
                 0 < Z.of_nat (length f) <= 0xFF00) ->
            ((exists uc b e, UcEmuStart uc b e ∈ tr) <->
             (exists fname (f : list Z),
                argv !! 1%nat = Some fname /\ w_uc_open w = 0 /\
                w_uc_mem_map w = 0 /\ w_fopen w fname = Some f /\
                0 < Z.of_nat (length f) <= 0xFF00)) /\
            (forall uc b e, UcEmuStart uc b e ∈ tr ->
               tr !! 0%nat = Some (UcEmuStart uc b e) /\
               b = 0x100 /\ e = 0x10100 /\
               forall i, (0 < i)%nat -> tr !! i <> Some (UcEmuStart uc b e)))
    as Hnone.
  { intros tr Hall Hno. split; [split|].
    - intros (uc & b & e & Hin). by apply no_start_in in Hin.
    - intros H. by destruct Hno.
    - intros uc b e Hin. by apply no_start_in in Hin. }
  unfold trace. rewrite main_outcome_eq. unfold main_outcome.
  destruct argv as [|prog [|fname rest]]; cbn [snd h_out host0].
  - apply Hnone; [done|]. by intros (? & ? & ? & _).
  - apply Hnone; [done|]. by intros (? & ? & ? & _).
  - destruct (decide (w_uc_open w <> 0)); cbn [snd h_out].
    { apply Hnone; [done|]. intros (? & ? & _ & ? & _). lia. }
    destruct (decide (w_uc_mem_map w <> 0)); cbn [snd h_out].
    { apply Hnone; [done|]. intros (? & ? & _ & _ & ? & _). lia. }
    destruct (w_fopen w fname) as [f|] eqn:Hfile; cbn [snd h_out].
    2:{ apply Hnone; [done|]. intros (? & ? & [= <-] & _ & _ & ? & _). congruence. }
    destruct (decide (0 < Z.of_nat (length f) <= 0xff00)); cbn [snd h_out].
    2:{ apply Hnone; [done|].
        intros (? & f' & [= <-] & _ & _ & ? & ?).
        assert (f' = f) as -> by congruence. lia. }
    clear Hnone. split; [split|].
    + intros _. exists fname, f. repeat split; (done || lia).
    + intros _. eexists _, _, _. apply elem_of_cons. by left.
    + intros uc b e Hin. apply elem_of_cons in Hin as [Heq|Hin].
      2:{ by apply no_start_in in Hin; [|apply no_start_in_diagnostic]. }
      injection Heq as -> -> ->. repeat split.
      intros [|i] Hi Hlook; [lia|]. cbn [lookup list_lookup] in Hlook.
      apply list_elem_of_lookup_2 in Hlook.
      by apply no_start_in in Hlook; [|apply no_start_in_diagnostic].
Qed.

(** X9: the engine is closed once on every way out that has opened it (an
    image path was given and [uc_open] succeeded), and never on the others. *)
Theorem uc_close_once w argv :
  closes (trace w argv)
  = if decide (w_uc_open w = 0 /\ (2 <= length argv)%nat) then 1%nat else 0%nat.
Proof.
  unfold trace. rewrite main_outcome_eq. unfold main_outcome.
  destruct (decide (w_uc_open w = 0 /\ (2 <= length argv)%nat)) as [[Hopen Hargc]|Hno];
    destruct argv as [|prog [|fname rest]]; cbn [snd h_out host0 length] in *;
    try done; try lia.
  - rewrite decide_False by lia.
    destruct (decide (w_uc_mem_map w <> 0)); [done|].
    destruct (w_fopen w fname) as [f|]; [|done].
    destruct (decide (0 < Z.of_nat (length f) <= 0xff00)); [|done].
    cbn [snd h_out]. unfold emu_diagnostic. by case_decide.
  - rewrite decide_True by lia. done.
Qed.

(** X10: what the automatic array [memory] holds before [main] uses it has
    no part in what the process does: two worlds that differ in it alone
    give the same result, the same engine and the same trace. *)
Theorem main_ignores_uninitialised w (garbage : nat -> Z) argv :
  main (World (w_uc_open w) (w_uc_mem_map w) (w_uc_emu_start w) (w_uc_strerror w)
              (w_fopen w) garbage (w_fresh w) (w_regs w)) argv host0
  = main w argv host0.
Proof.
  rewrite !main_outcome_eq.
  unfold main_outcome, started_engine, emu_diagnostic, fresh_mapping.
  cbn [w_uc_open w_uc_mem_map w_uc_emu_start w_uc_strerror w_fopen w_fresh w_regs].
  reflexivity.
Qed.

(** X13: when the run loop reports an error, the process prints one line on
    the standard error stream with the error number and the engine's text
    for it, closes the engine and still ends with status 0; when it reports
    none, nothing is printed. *)
Theorem run_error_reported w argv fname (f : list Z) :
  argv !! 1%nat = Some fname ->
  w_uc_open w = 0 ->
  w_uc_mem_map w = 0 ->
  w_fopen w fname = Some f ->
  0 < Z.of_nat (length f) <= 0xFF00 ->
  exit_status w argv = Some 0 /\
  exists uc,
    trace w argv
    = UcEmuStart uc 0x100 0x10100
        :: (if decide (w_uc_emu_start w = 0) then []
            else [Stderr ("Failed on uc_emu_start() with error returned "
                          +:+ fmt_u (w_uc_emu_start w) +:+ ": "
                          +:+ w_uc_strerror w (w_uc_emu_start w) +:+ nl)])
        ++ [UcClose].
Proof.
  intros Hargv Hopen Hmap Hfile Hf. unfold exit_status, trace.
  rewrite (main_ok w argv fname f) by done. cbn [fst snd h_out].
  split; [done|]. eexists. unfold emu_diagnostic.
  destruct (decide (w_uc_emu_start w = 0)).
  - by rewrite decide_False by lia.
  - by rewrite decide_True.
Qed.

Lemma run_error_reported_witness :
  exit_status faulting_world ["unidos"; "a.com"] = Some 0 /\
  exists uc,
    trace faulting_world ["unidos"; "a.com"]
    = UcEmuStart uc 0x100 0x10100
        :: (if decide (w_uc_emu_start faulting_world = 0) then []
            else [Stderr ("Failed on uc_emu_start() with error returned "
                          +:+ fmt_u (w_uc_emu_start faulting_world) +:+ ": "
                          +:+ w_uc_strerror faulting_world (w_uc_emu_start faulting_world)
                          +:+ nl)])
        ++ [UcClose].
Proof.
  apply (run_error_reported faulting_world ["unidos"; "a.com"] "a.com" int20_com);
    try reflexivity.
  simpl. lia.
Defined.

Example faulting_world_diagnostic :
  emu_diagnostic faulting_world
  = [Stderr ("Failed on uc_emu_start() with error returned 10: Invalid instruction (UC_ERR_INSN_INVALID)" +:+ nl)].
Proof. reflexivity. Qed.

(** X14: outside the run loop the process writes to the standard output
    only the two lines of [usage], and only when no image path is given;
    every diagnostic goes to the standard error stream. *)
Theorem stdout_only_usage w argv s :
  Stdout s ∈ trace w argv <->
  exists prog,
    argv = [prog] /\
    (s = "UniDOS for DOS emulation. Based on Unicorn engine (www.unicorn-engine.org)" +:+ nl
     \/ s = "Syntax: " +:+ prog +:+ " <COM>" +:+ nl).
Proof.
  unfold trace. rewrite main_outcome_eq. unfold main_outcome.
  destruct argv as [|prog [|fname rest]]; cbn [snd h_out host0].
  - rewrite elem_of_nil. split; [done|]. by intros (? & ? & _).
  - rewrite !elem_of_cons, elem_of_nil. split.
    + intros [[= ->]|[[= ->]|[]]]; exists prog; auto.
    + intros (? & [= <-] & [->| ->]); auto.
  - split; [|by intros (? & ? & _)].
    intros Hin. exfalso. revert Hin.
    destruct (decide (w_uc_open w <> 0)); cbn [snd h_out].
    { rewrite !elem_of_cons, elem_of_nil. by intros [|[]]. }
    destruct (decide (w_uc_mem_map w <> 0)); cbn [snd h_out].
    { rewrite !elem_of_cons, elem_of_nil. by intros [|[|[]]]. }
    destruct (w_fopen w fname) as [f|]; cbn [snd h_out].
    2:{ rewrite !elem_of_cons, elem_of_nil. by intros [|[|[]]]. }
    destruct (decide (0 < Z.of_nat (length f) <= 0xff00)); cbn [snd h_out].
    2:{ rewrite !elem_of_cons, elem_of_nil. by intros [|[|[]]]. }
    unfold emu_diagnostic. case_decide; cbn [app];
      rewrite !elem_of_cons, elem_of_nil; intuition discriminate.
Qed.

(** ** [setup_psp], its edges and its frame *)

Lemma length_spaced args :
  length (spaced args) = sum_list_with (fun a => S (length (cstring a))) args.
Proof.
  induction args as [|a0 rest IH]; [done|].
  rewrite spaced_cons. cbn [length sum_list_with]. rewrite length_app. lia.
Qed.

Lemma length_tail_text argv : length (tail_text argv) = tail_demand argv.
Proof. apply length_spaced. Qed.

(** The start of a proof about the result of [setup_psp] on a buffer the
    record fits in: the result is [psp_image], at the offset [a]. *)
Ltac setup_psp_start seg Hfit :=
  eexists; split; [by apply setup_psp_spec|];
  revert Hfit; change sizeof_PSP with 256; intros Hfit;
  let Hpos := fresh "Hpos" in
  assert (0 <= uint32 (MK_FP seg 0)) as Hpos
    by (unfold uint32; apply Z.mod_pos_bound; lia);
  cbv beta zeta.

(** X1: [setup_psp] keeps the length of the buffer and changes at most the
    bytes it assigns to: offsets 0, 1, 0x50..0x52, 0x5C, 0x5D of the record,
    the length prefix and the tail up to its terminator.  Nothing outside
    the 256 bytes of the record changes, so an image at offset 0x100 of the
    segment is left as it was. *)
Theorem setup_psp_changes_only seg (memory : list Z) argv :
  uint32 (MK_FP seg 0) + sizeof_PSP <= Z.of_nat (length memory) ->
  exists m' : list Z,
    setup_psp seg memory argv = Some m' /\
    let a := Z.to_nat (uint32 (MK_FP seg 0)) in
    let n := length (command_tail argv) in
    length m' = length memory /\
    (forall j : nat,
       j ∉ [a; a + 1; a + 0x50; a + 0x51; a + 0x52; a + 0x5C; a + 0x5D]%nat ->
       ~ (a + 0x80 <= j <= a + 0x81 + n)%nat ->
       m' !! j = memory !! j) /\
    (forall j : nat, ~ (a <= j < a + 256)%nat -> m' !! j = memory !! j).
Proof.
  intros Hfit. setup_psp_start seg Hfit.
  pose proof (length_command_tail argv) as Hlen.
  split; [apply length_psp_image|]. split.
  - intros j Hj Hout. rewrite !not_elem_of_cons in Hj.
    destruct Hj as (? & ? & ? & ? & ? & ? & ? & _).
    apply psp_image_frame; lia.
  - intros j Hout. apply psp_image_frame; lia.
Qed.

Lemma setup_psp_changes_only_witness :
  exists m' : list Z,
    setup_psp 0 (replicate 300 7) ["unidos"; "a.com"; "x"] = Some m' /\
    let a := Z.to_nat (uint32 (MK_FP 0 0)) in
    let n := length (command_tail ["unidos"; "a.com"; "x"]) in
    length m' = length (replicate 300 7) /\
    (forall j : nat,
       j ∉ [a; a + 1; a + 0x50; a + 0x51; a + 0x52; a + 0x5C; a + 0x5D]%nat ->
       ~ (a + 0x80 <= j <= a + 0x81 + n)%nat ->
       m' !! j = replicate 300 7 !! j) /\
    (forall j : nat, ~ (a <= j < a + 256)%nat -> m' !! j = replicate 300 7 !! j).
Proof.
  apply (setup_psp_changes_only 0 (replicate 300 7) ["unidos"; "a.com"; "x"]).
  vm_compute. discriminate.
Defined.

(** X2: with no argument after the image path the tail is empty: the length
    prefix is 0 and the terminator is the first byte of [CommandLine]. *)
Theorem setup_psp_no_arguments seg (memory : list Z) argv :
  uint32 (MK_FP seg 0) + sizeof_PSP <= Z.of_nat (length memory) ->
  (length argv <= 2)%nat ->
  exists m' : list Z,
    setup_psp seg memory argv = Some m' /\
    let a := Z.to_nat (uint32 (MK_FP seg 0)) in
    m' !! (a + 0x80)%nat = Some 0 /\
    m' !! (a + 0x81)%nat = Some 0x0D.
Proof.
  intros Hfit Hargc. setup_psp_start seg Hfit.
  assert (command_tail argv = []) as ->.
  { unfold command_tail, tail_text. by rewrite drop_ge by done. }
  split.
  - by rewrite psp_image_length_prefix by (cbn [length]; lia).
  - replace (Z.to_nat (uint32 (MK_FP seg 0)) + 0x81)%nat
      with (Z.to_nat (uint32 (MK_FP seg 0)) + 129 + length (@nil Z))%nat
      by (cbn [length]; lia).
    apply psp_image_terminator; cbn [length]; lia.
Qed.

Lemma setup_psp_no_arguments_witness :
  exists m' : list Z,
    setup_psp 0 (replicate 256 7) ["unidos"; "a.com"] = Some m' /\
    let a := Z.to_nat (uint32 (MK_FP 0 0)) in
    m' !! (a + 0x80)%nat = Some 0 /\
    m' !! (a + 0x81)%nat = Some 0x0D.
Proof.
  apply (setup_psp_no_arguments 0 (replicate 256 7) ["unidos"; "a.com"]).
  - vm_compute. discriminate.
  - simpl. lia.
Defined.

(** X3: when the arguments ask for 126 bytes or more, the tail is cut: the
    length prefix is 126, the content is the first 126 bytes, and the
    terminator is the last byte of the record, offset 0xFF. *)
Theorem setup_psp_truncated seg (memory : list Z) argv :
  uint32 (MK_FP seg 0) + sizeof_PSP <= Z.of_nat (length memory) ->
  (126 <= tail_demand argv)%nat ->
  exists m' : list Z,
    setup_psp seg memory argv = Some m' /\
    let a := Z.to_nat (uint32 (MK_FP seg 0)) in
    m' !! (a + 0x80)%nat = Some 126 /\
    (forall k, (k < 126)%nat -> m' !! (a + 0x81 + k)%nat = tail_text argv !! k) /\
    m' !! (a + 0xFF)%nat = Some 0x0D.
Proof.
  intros Hfit Hlong. setup_psp_start seg Hfit.
  assert (length (command_tail argv) = 126%nat) as Hlen.
  { unfold command_tail. rewrite length_take, length_tail_text. lia. }
  split; [|split].
  - rewrite psp_image_length_prefix by lia. by rewrite Hlen.
  - intros k Hk.
    replace (Z.to_nat (uint32 (MK_FP seg 0)) + 0x81 + k)%nat
      with (Z.to_nat (uint32 (MK_FP seg 0)) + 129 + k)%nat by lia.
    rewrite psp_image_content by lia.
    unfold command_tail. by apply lookup_take_lt.
  - replace (Z.to_nat (uint32 (MK_FP seg 0)) + 0xFF)%nat
      with (Z.to_nat (uint32 (MK_FP seg 0)) + 129 + length (command_tail argv))%nat
      by lia.
    apply psp_image_terminator; lia.
Qed.

Lemma setup_psp_truncated_witness :
  exists m' : list Z,
    setup_psp 0 (replicate 256 7) ["unidos"; "a.com"; long_argument] = Some m' /\
    let a := Z.to_nat (uint32 (MK_FP 0 0)) in
    m' !! (a + 0x80)%nat = Some 126 /\
    (forall k, (k < 126)%nat ->
       m' !! (a + 0x81 + k)%nat = tail_text ["unidos"; "a.com"; long_argument] !! k) /\
    m' !! (a + 0xFF)%nat = Some 0x0D.
Proof.
  apply (setup_psp_truncated 0 (replicate 256 7) ["unidos"; "a.com"; long_argument]).
  - vm_compute. discriminate.
  - vm_compute. lia.
Defined.

(** X4: when the arguments ask for at most 126 bytes (one space and the
    characters, for each), nothing is cut: the length prefix is that number,
    every argument is in the tail behind its space, and the terminator
    follows the last of them. *)
Theorem setup_psp_all_fits seg (memory : list Z) argv :
  uint32 (MK_FP seg 0) + sizeof_PSP <= Z.of_nat (length memory) ->
  (tail_demand argv <= 126)%nat ->
  exists m' : list Z,
    setup_psp seg memory argv = Some m' /\
    let a := Z.to_nat (uint32 (MK_FP seg 0)) in
    m' !! (a + 0x80)%nat = Some (Z.of_nat (tail_demand argv)) /\
    take (tail_demand argv) (drop (a + 0x81) m') = tail_text argv /\
    m' !! (a + 0x81 + tail_demand argv)%nat = Some 0x0D.
Proof.
  intros Hfit Hshort. setup_psp_start seg Hfit.
  assert (command_tail argv = tail_text argv) as Htail.
  { unfold command_tail. apply take_ge. rewrite length_tail_text. lia. }
  rewrite Htail, <- length_tail_text.
  pose proof (length_tail_text argv) as Hlen.
  split; [|split].
  - by rewrite psp_image_length_prefix by lia.
  - apply list_eq. intros k.
    destruct (decide (k < length (tail_text argv))%nat) as [Hk|Hk].
    + rewrite lookup_take_lt, lookup_drop by done.
      replace (Z.to_nat (uint32 (MK_FP seg 0)) + 0x81 + k)%nat
        with (Z.to_nat (uint32 (MK_FP seg 0)) + 129 + k)%nat by lia.
      by rewrite psp_image_content by lia.
    + rewrite lookup_take_ge by lia. symmetry. apply lookup_ge_None_2. lia.
  - replace (Z.to_nat (uint32 (MK_FP seg 0)) + 0x81 + length (tail_text argv))%nat
      with (Z.to_nat (uint32 (MK_FP seg 0)) + 129 + length (tail_text argv))%nat by lia.
    apply psp_image_terminator; lia.
Qed.

Lemma setup_psp_all_fits_witness :
  exists m' : list Z,
    setup_psp 0 (replicate 256 7) ["unidos"; "a.com"; "foo"; ""; "bar"] = Some m' /\
    let a := Z.to_nat (uint32 (MK_FP 0 0)) in
    m' !! (a + 0x80)%nat
    = Some (Z.of_nat (tail_demand ["unidos"; "a.com"; "foo"; ""; "bar"])) /\
    take (tail_demand ["unidos"; "a.com"; "foo"; ""; "bar"]) (drop (a + 0x81) m')
    = tail_text ["unidos"; "a.com"; "foo"; ""; "bar"] /\
    m' !! (a + 0x81 + tail_demand ["unidos"; "a.com"; "foo"; ""; "bar"])%nat = Some 0x0D.
Proof.
  apply (setup_psp_all_fits 0 (replicate 256 7) ["unidos"; "a.com"; "foo"; ""; "bar"]).
  - vm_compute. discriminate.
  - vm_compute. lia.
Defined.

Example tail_with_empty_argument :
  tail_text ["unidos"; "a.com"; "foo"; ""; "bar"]
  = byte_of <$> list_ascii_of_string " foo  bar".
Proof. reflexivity. Qed.

(** ** [load_com], when it returns and when it does not *)

Lemma length_memset (m m1 : list Z) v n :
  memset m v n = Some m1 -> length m1 = length m.
Proof.
  unfold memset. case_decide; [|done]. intros [= <-].
  rewrite length_app, length_replicate, length_drop. lia.
Qed.

Lemma length_fread (m m2 : list Z) a size f :
  fread m a size f = Some m2 -> length m2 = length m.
Proof.
  unfold fread. case_decide; [|done]. intros [= <-]. apply length_inserts.
Qed.

(** X5: whenever [load_com] returns, the size it returns is the length of
    the file and lies in 1..0xFF00, so that the image ends at or below
    0x10000; nothing was printed, the buffer has its length, and of the
    engine only SP, CS, DS, ES and SS were written: its memory, its hook,
    its stop request, IP and AH are as before. *)
Theorem load_com_returns w (memory : list Z) fname h fsize (m' : list Z) h' :
  load_com w memory fname h = (Ret (fsize, m'), h') ->
  (exists f : list Z, w_fopen w fname = Some f /\ fsize = Z.of_nat (length f)) /\
  0 < fsize <= 0xFF00 /\
  DOS_ADDR + fsize <= 0x10000 /\
  length m' = length memory /\
  h_out h' = h_out h /\
  uc_mem (h_uc h') = uc_mem (h_uc h) /\
  uc_hooked (h_uc h') = uc_hooked (h_uc h) /\
  uc_stopped (h_uc h') = uc_stopped (h_uc h) /\
  uc_regs (h_uc h') UC_X86_REG_IP = uc_regs (h_uc h) UC_X86_REG_IP /\
  uc_regs (h_uc h') UC_X86_REG_AH = uc_regs (h_uc h) UC_X86_REG_AH.
Proof.
  intros Hload. destruct (w_fopen w fname) as [f|] eqn:Hopen.
  2:{ by rewrite load_com_not_found in Hload. }
  destruct (decide (Z.of_nat (length f) = 0 \/ Z.of_nat (length f) > 0xff00)) as [Hsz|Hsz].
  { by rewrite (load_com_invalid_size _ _ _ f) in Hload. }
  unfold load_com in Hload. rewrite Hopen in Hload.
  rewrite decide_False in Hload by done.
  destruct (memset memory 0 MEM_SIZE) as [m1|] eqn:Hset; [|done].
  unfold mbind at 1, M_bind at 1, defined at 1, mret at 1, M_ret at 1 in Hload.
  destruct (fread m1 DOS_ADDR (Z.of_nat (length f)) f) as [m2|] eqn:Hread; [|done].
  injection Hload as <- <- <-.
  apply length_memset in Hset. apply length_fread in Hread.
  split; [by exists f|]. unfold DOS_ADDR.
  repeat split; try lia; try done; congruence.
Qed.

Lemma load_com_returns_witness :
  exists fsize (m' : list Z) h',
    load_com fine_world (auto_memory fine_world) "a.com" host0
    = (Ret (fsize, m'), h') /\
    (exists f : list Z, w_fopen fine_world "a.com" = Some f /\ fsize = Z.of_nat (length f)) /\
    0 < fsize <= 0xFF00 /\
    DOS_ADDR + fsize <= 0x10000 /\
    length m' = length (auto_memory fine_world) /\
    h_out h' = h_out host0 /\
    uc_mem (h_uc h') = uc_mem (h_uc host0) /\
    uc_hooked (h_uc h') = uc_hooked (h_uc host0) /\
    uc_stopped (h_uc h') = uc_stopped (h_uc host0) /\
    uc_regs (h_uc h') UC_X86_REG_IP = uc_regs (h_uc host0) UC_X86_REG_IP /\
    uc_regs (h_uc h') UC_X86_REG_AH = uc_regs (h_uc host0) UC_X86_REG_AH.
Proof.
  assert (load_com fine_world (auto_memory fine_world) "a.com" host0
          = (Ret (Z.of_nat (length int20_com), loaded int20_com),
             Host (UcEngine (loaded_regs (fun _ => 0)) [] false false) []))
    as Hload.
  { apply (load_com_ok fine_world (auto_memory fine_world) "a.com" int20_com host0).
    - reflexivity.
    - simpl. lia.
    - apply length_auto_memory. }
  eexists _, _, _. split; [exact Hload|].
  exact (load_com_returns _ _ _ _ _ _ _ Hload).
Defined.

(** X6: whenever [load_com] ends the process, the status is [EXIT_FAILURE]
    and the engine is as it was (no register was written); the image could
    not be opened, or its size is 0 or above 0xFF00, and the process has
    printed the diagnostic of that case and then closed the engine. *)
Theorem load_com_exits w (memory : list Z) fname h status h' :
  load_com w memory fname h = (Exit status, h') ->
  status = EXIT_FAILURE /\
  h_uc h' = h_uc h /\
  ((w_fopen w fname = None /\
    h_out h' = h_out h ++ [Perror "Error"; UcClose]) \/
   (exists f : list Z,
      w_fopen w fname = Some f /\
      (Z.of_nat (length f) = 0 \/ Z.of_nat (length f) > 0xFF00) /\
      h_out h' = h_out h ++ [Stderr ("Invalid file size" +:+ nl); UcClose])).
Proof.
  intros Hload. destruct (w_fopen w fname) as [f|] eqn:Hopen.
  - destruct (decide (Z.of_nat (length f) = 0 \/ Z.of_nat (length f) > 0xff00)) as [Hsz|Hsz].
    + rewrite (load_com_invalid_size _ _ _ f) in Hload by done.
      injection Hload as <- <-. repeat split. right. by exists f.
    + unfold load_com in Hload. rewrite Hopen in Hload.
      rewrite decide_False in Hload by done.
      destruct (memset memory 0 MEM_SIZE) as [m1|]; [|done].
      unfold mbind at 1, M_bind at 1, defined at 1, mret at 1, M_ret at 1 in Hload.
      destruct (fread m1 DOS_ADDR (Z.of_nat (length f)) f) as [m2|]; done.
  - rewrite load_com_not_found in Hload by done.
    injection Hload as <- <-. repeat split. by left.
Qed.

Lemma load_com_exits_witness :
  exists status h',
    load_com empty_file_world [] "a.com" host0 = (Exit status, h') /\
    status = EXIT_FAILURE /\
    h_uc h' = h_uc host0 /\
    ((w_fopen empty_file_world "a.com" = None /\
      h_out h' = h_out host0 ++ [Perror "Error"; UcClose]) \/
     (exists f : list Z,
        w_fopen empty_file_world "a.com" = Some f /\
        (Z.of_nat (length f) = 0 \/ Z.of_nat (length f) > 0xFF00) /\
        h_out h' = h_out host0 ++ [Stderr ("Invalid file size" +:+ nl); UcClose])).
Proof.
  assert (load_com empty_file_world [] "a.com" host0
          = (Exit EXIT_FAILURE,
             Host (h_uc host0) (h_out host0 ++ [Stderr ("Invalid file size" +:+ nl); UcClose])))
    as Hload by reflexivity.
  eexists _, _. split; [exact Hload|].
  exact (load_com_exits _ _ _ _ _ _ Hload).
Defined.

(** ** The engine the run loop is entered on *)

(** X11: the engine the run loop is entered on holds the image, byte for
    byte, from 0x100 on; [setup_psp] has not touched it.  Past the image
    nothing of the buffer was written to the engine: the bytes there are
    those of the fresh mapping. *)
Theorem started_engine_image w argv fname (f : list Z) :
  argv !! 1%nat = Some fname ->
  w_uc_open w = 0 ->
  w_uc_mem_map w = 0 ->
  w_fopen w fname = Some f ->
  0 < Z.of_nat (length f) <= 0xFF00 ->
  exists uc,
    trace w argv !! 0%nat = Some (UcEmuStart uc 0x100 0x10100) /\
    Z.of_nat (length (uc_mem uc)) = MEM_SIZE /\
    (forall k, (k < length f)%nat -> uc_mem uc !! (0x100 + k)%nat = f !! k) /\
    (forall j, (0x100 + length f <= j)%nat -> Z.of_nat j < MEM_SIZE ->
               uc_mem uc !! j = Some (w_fresh w j)).
Proof.
  intros Hargv Hopen Hmap Hfile Hf. exists (started_engine w argv f).
  split; [by apply (started_engine_first w argv fname f)|].
  pose proof (length_command_tail argv) as Hlen.
  pose proof (length_fresh_mapping w) as Hfresh.
  pose proof (length_loaded f Hf) as Hloaded.
  split; [|split].
  - unfold started_engine. cbn [uc_mem]. rewrite length_inserts. exact Hfresh.
  - intros k Hk. rewrite started_engine_lookup by (assumption || lia).
    rewrite psp_image_frame by lia.
    rewrite loaded_lookup by assumption.
    rewrite decide_False by lia. rewrite decide_True by lia. f_equal. lia.
  - intros j Hj Hmem. unfold started_engine. cbn [uc_mem].
    pose proof MEM_SIZE_eq as HM. unfold DOS_ADDR.
    rewrite list_lookup_inserts_ge
      by (rewrite length_take, length_psp_image; lia).
    unfold fresh_mapping. rewrite list_lookup_fmap.
    rewrite lookup_seq_lt by lia. reflexivity.
Qed.

Lemma started_engine_image_witness :
  exists uc,
    trace fine_world ["unidos"; "a.com"; "foo"] !! 0%nat
    = Some (UcEmuStart uc 0x100 0x10100) /\
    Z.of_nat (length (uc_mem uc)) = MEM_SIZE /\
    (forall k, (k < length int20_com)%nat ->
               uc_mem uc !! (0x100 + k)%nat = int20_com !! k) /\
    (forall j, (0x100 + length int20_com <= j)%nat -> Z.of_nat j < MEM_SIZE ->
               uc_mem uc !! j = Some (w_fresh fine_world j)).
Proof.
  apply (started_engine_image fine_world ["unidos"; "a.com"; "foo"] "a.com" int20_com);
    try reflexivity.
  simpl. lia.
Defined.

(** X12: the engine the run loop is entered on holds the record that
    [setup_psp] built: INT 20h at 0, INT 21h and RETF at 0x50, 01 20 at
    0x5C, the length of the tail at 0x80, the tail from 0x81 and 0x0D
    behind it. *)
Theorem started_engine_record w argv fname (f : list Z) :
  argv !! 1%nat = Some fname ->
  w_uc_open w = 0 ->
  w_uc_mem_map w = 0 ->
  w_fopen w fname = Some f ->
  0 < Z.of_nat (length f) <= 0xFF00 ->
  exists uc,
    trace w argv !! 0%nat = Some (UcEmuStart uc 0x100 0x10100) /\
    let n := length (command_tail argv) in
    take 2 (uc_mem uc) = [0xCD; 0x20] /\
    take 3 (drop 0x50 (uc_mem uc)) = [0xCD; 0x21; 0xCB] /\
    take 2 (drop 0x5C (uc_mem uc)) = [0x01; 0x20] /\
    uc_mem uc !! 0x80%nat = Some (Z.of_nat n) /\
    take n (drop 0x81 (uc_mem uc)) = command_tail argv /\
    uc_mem uc !! (0x81 + n)%nat = Some 0x0D.
Proof.
  intros Hargv Hopen Hmap Hfile Hf. exists (started_engine w argv f).
  split; [by apply (started_engine_first w argv fname f)|].
  pose proof (length_command_tail argv) as Hlen.
  pose proof (length_loaded f Hf) as Hloaded. rewrite MEM_SIZE_eq in Hloaded.
  assert (forall j, (j < 256)%nat ->
            uc_mem (started_engine w argv f) !! j
            = psp_image 0 (command_tail argv) (loaded f) !! j) as Hrec
    by (intros; apply started_engine_lookup; (assumption || lia)).
  destruct (psp_image_CPMExit 0 (command_tail argv) (loaded f)) as [E0 E1]; [lia..|].
  destruct (psp_image_DOSFarCall 0 (command_tail argv) (loaded f)) as (F0 & F1 & F2); [lia..|].
  destruct (psp_image_FCB1 0 (command_tail argv) (loaded f)) as [G0 G1]; [lia..|].
  pose proof (psp_image_length_prefix 0 (command_tail argv) (loaded f)) as L0.
  pose proof (psp_image_terminator 0 (command_tail argv) (loaded f)) as T0.
  pose proof (psp_image_content 0 (command_tail argv) (loaded f)) as C0.
  set (mem := uc_mem (started_engine w argv f)) in *.
  set (img := psp_image 0 (command_tail argv) (loaded f)) in *.
  clearbody mem img. cbv zeta.
  split; [|split; [|split; [|split; [|split]]]].
  - apply list_eq. intros [|[|i]].
    + rewrite lookup_take_lt, Hrec by lia. exact E0.
    + rewrite lookup_take_lt, Hrec by lia. exact E1.
    + rewrite lookup_take_ge by lia. reflexivity.
  - apply list_eq. intros [|[|[|i]]].
    + rewrite lookup_take_lt, lookup_drop, Hrec by lia. exact F0.
    + rewrite lookup_take_lt, lookup_drop, Hrec by lia. exact F1.
    + rewrite lookup_take_lt, lookup_drop, Hrec by lia. exact F2.
    + rewrite lookup_take_ge by lia. reflexivity.
  - apply list_eq. intros [|[|i]].
    + rewrite lookup_take_lt, lookup_drop, Hrec by lia. exact G0.
    + rewrite lookup_take_lt, lookup_drop, Hrec by lia. exact G1.
    + rewrite lookup_take_ge by lia. reflexivity.
  - rewrite Hrec by lia. apply L0; lia.
  - apply list_eq. intros k.
    destruct (decide (k < length (command_tail argv))%nat) as [Hk|Hk].
    + rewrite lookup_take_lt, lookup_drop, Hrec by lia.
      apply C0; lia.
    + rewrite lookup_take_ge by lia. symmetry. apply lookup_ge_None_2. lia.
  - rewrite Hrec by lia. apply T0; lia.
Qed.

Lemma started_engine_record_witness :
  exists uc,
    trace fine_world ["unidos"; "a.com"; "foo"] !! 0%nat
    = Some (UcEmuStart uc 0x100 0x10100) /\
    let n := length (command_tail ["unidos"; "a.com"; "foo"]) in
    take 2 (uc_mem uc) = [0xCD; 0x20] /\
    take 3 (drop 0x50 (uc_mem uc)) = [0xCD; 0x21; 0xCB] /\
    take 2 (drop 0x5C (uc_mem uc)) = [0x01; 0x20] /\
    uc_mem uc !! 0x80%nat = Some (Z.of_nat n) /\
    take n (drop 0x81 (uc_mem uc)) = command_tail ["unidos"; "a.com"; "foo"] /\
    uc_mem uc !! (0x81 + n)%nat = Some 0x0D.
Proof.
  apply (started_engine_record fine_world ["unidos"; "a.com"; "foo"] "a.com" int20_com);
    try reflexivity.
  simpl. lia.
Defined.



(** ** The record, member by member *)

(** Replaces the offset and the size of every named member by its value. *)
Ltac eval_members :=
  repeat match goal with
    | |- context [offsetof ?f] =>
        is_constructor f;
        let v := eval vm_compute in (offsetof f) in change (offsetof f) with v
    | |- context [field_size ?f] =>
        is_constructor f;
        let v := eval vm_compute in (field_size f) in change (field_size f) with v
    | H : context [offsetof ?f] |- _ =>
        is_constructor f;
        let v := eval vm_compute in (offsetof f) in change (offsetof f) with v in H
    | H : context [field_size ?f] |- _ =>
        is_constructor f;
        let v := eval vm_compute in (field_size f) in change (field_size f) with v in H
    end.

(** X16: packed, the members lie back to back, at 0x00, 0x02, 0x04, 0x05,
    0x0A, 0x0E, 0x12, 0x16, 0x18, 0x2C, 0x2E, 0x32, 0x34, 0x38, 0x3C, 0x40,
    0x42, 0x50, 0x53, 0x55, 0x5C, 0x6C, 0x80 and 0x81 in the order of their
    declaration, and every byte of the 256 belongs to one member and to no
    other: there is no padding and no overlap. *)
Theorem PSP_members_tile :
  (fun d => offsetof (m_name d)) <$> struct_PSP
  = [0x00; 0x02; 0x04; 0x05; 0x0A; 0x0E; 0x12; 0x16; 0x18; 0x2C; 0x2E; 0x32;
     0x34; 0x38; 0x3C; 0x40; 0x42; 0x50; 0x53; 0x55; 0x5C; 0x6C; 0x80; 0x81] /\
  forall off, 0 <= off < sizeof_PSP ->
    exists f,
      offsetof f <= off < offsetof f + field_size f /\
      forall g, offsetof g <= off < offsetof g + field_size g -> g = f.
Proof.
  split; [reflexivity|].
  change sizeof_PSP with 256. intros off Hoff.
  assert (forall f,
            offsetof f <= off < offsetof f + field_size f ->
            exists f0,
              offsetof f0 <= off < offsetof f0 + field_size f0 /\
              forall g, offsetof g <= off < offsetof g + field_size g -> g = f0)
    as Hone.
  { intros f Hf. exists f. split; [exact Hf|].
    intros g Hg. destruct f; eval_members;
      destruct g; eval_members; (reflexivity || lia). }
  destruct (decide (off < 0x18)).
  - destruct (decide (off < 0x05)).
    + destruct (decide (off < 0x02)); [apply (Hone CPMExit); eval_members; lia|].
      destruct (decide (off < 0x04));
        [apply (Hone FirstFreeSegment)|apply (Hone Reserved1)]; eval_members; lia.
    + destruct (decide (off < 0x0A)); [apply (Hone CPMCall5Compat); eval_members; lia|].
      destruct (decide (off < 0x0E)); [apply (Hone OldTSRAddress); eval_members; lia|].
      destruct (decide (off < 0x12)); [apply (Hone OldBreakAddress); eval_members; lia|].
      destruct (decide (off < 0x16));
        [apply (Hone CriticalErrorHandlerAddress)|apply (Hone CallerPSPSegment)];
        eval_members; lia.
  - destruct (decide (off < 0x40)).
    + destruct (decide (off < 0x2C)); [apply (Hone JobFileTable); eval_members; lia|].
      destruct (decide (off < 0x2E)); [apply (Hone EnvironmentSegment); eval_members; lia|].
      destruct (decide (off < 0x32)); [apply (Hone INT21SSSP); eval_members; lia|].
      destruct (decide (off < 0x34)); [apply (Hone JobFileTableSize); eval_members; lia|].
      destruct (decide (off < 0x38)); [apply (Hone JobFileTablePointer); eval_members; lia|].
      destruct (decide (off < 0x3C));
        [apply (Hone PreviousPSP)|apply (Hone Reserved2)]; eval_members; lia.
    + destruct (decide (off < 0x42)); [apply (Hone DOSVersion); eval_members; lia|].
      destruct (decide (off < 0x50)); [apply (Hone Reserved3); eval_members; lia|].
      destruct (decide (off < 0x53)); [apply (Hone DOSFarCall); eval_members; lia|].
      destruct (decide (off < 0x55)); [apply (Hone Reserved4); eval_members; lia|].
      destruct (decide (off < 0x5C)); [apply (Hone ExtendedFCB1); eval_members; lia|].
      destruct (decide (off < 0x6C)); [apply (Hone FCB1); eval_members; lia|].
      destruct (decide (off < 0x80)); [apply (Hone FCB2); eval_members; lia|].
      destruct (decide (off < 0x81));
        [apply (Hone CommandLineLength)|apply (Hone CommandLine)]; eval_members; lia.
Qed.
